(** * Hacker News "newest" ordering check: a shallow embedding

    The repository holds three successive versions of one Playwright script
    (all in [src/unnamed/part_000]):

    - lines 1-195: the final script, which pages with the "More" link
      ([ClickWalker] below);
    - lines 196-361: an intermediate version of that walker, with the same
      loop guard and the same count of entries per page (line 321); it is
      not modelled on its own;
    - lines 362-491: the first draft, which reloads the listing at an offset
      ([OffsetWalker] below).

    The browser is an external collaborator.  What the script observes of it
    is gathered in [Page] (one rendered listing) and [Site] (the listing
    reached after a given number of pagination steps).  A run is a list of
    [Event]s followed by an [Outcome]. *)

From Stdlib Require Import ZArith NArith List Bool Ascii String Lia.
From Stdlib Require Import Floats.SpecFloat.
Import ListNotations.
Local Open Scope Z_scope.

(** ** Dates *)

(** The time value of a JavaScript [Date]: a whole number of milliseconds,
    or NaN for an "Invalid Date" (what [new Date(s)] gives when [s] does not
    parse). *)
Inductive TimeValue : Type :=
| Valid (ms : Z)
| InvalidDate.

(** [a > b] on two dates: both are converted to numbers, and a comparison
    with NaN is false. *)
Definition date_gt (a b : TimeValue) : bool :=
  match a, b with
  | Valid x, Valid y => y <? x
  | _, _ => false
  end.

(** [a >= b] on two dates, false as well when one side is NaN. *)
Definition date_ge (a b : TimeValue) : bool :=
  match a, b with
  | Valid x, Valid y => y <=? x
  | _, _ => false
  end.

Definition is_valid (t : TimeValue) : bool :=
  match t with Valid _ => true | InvalidDate => false end.

(** ** Strings and numbers *)

(** A JavaScript string: the sequence of its UTF-16 code units, each a
    number below 65536. *)
Definition JsString : Type := list N.

(** The JavaScript string of an ASCII text. *)
Definition js (s : string) : JsString :=
  map N_of_ascii (list_ascii_of_string s).

(** [s.substring(n)]: [s] without its first [n] code units. *)
Definition substring_from (n : nat) (s : JsString) : JsString := skipn n s.

(** A JavaScript number: an IEEE 754 double (53 bits of precision). *)
Definition double : Type := spec_float.

(** The double nearest to an integer; the integer itself when it has no
    more than 53 bits. *)
Definition double_of_Z (z : Z) : double := binary_normalize 53 1024 z 0 false.

(** [x * y] and [x + y] on doubles, rounded to nearest, ties to even. *)
Definition double_mul (x y : double) : double := SFmul 53 1024 x y.
Definition double_add (x y : double) : double := SFadd 53 1024 x y.

(** [Math.floor]: the largest integer not above [x]; zeros, infinities and
    NaN are returned as they are. *)
Definition double_floor (x : double) : double :=
  match x with
  | S754_finite s m e =>
      if e <? 0
      then binary_normalize 53 1024 (cond_Zopp s (Zpos m) / 2 ^ (- e)) 0 false
      else x
  | _ => x
  end.

(** ** What the script sees of the browser *)

(** One rendered listing.  [ages], [athings] and [scores] are what the three
    locators of [validateArticlesOnPage] resolve to inside the article
    table: the parsed [title] attribute of each [.age], the title line of
    each [.athing], the [id] attribute of each [.score].  [morelinks] is
    [more_button.count()].  [sel_age], [sel_athing] and [sel_score] say
    whether [page.waitForSelector] finds a visible element of that class
    anywhere on the page before its timeout, [table_shown] whether the
    article table itself is visible, [content_loads] whether
    [page.content()] resolves. *)
Record Page : Type := mkPage {
  morelinks : nat;
  table_shown : bool;
  sel_age : bool;
  sel_athing : bool;
  sel_score : bool;
  ages : list TimeValue;
  athings : list JsString;
  scores : list JsString;
  content_loads : bool
}.

(** The listing shown after [k] pagination steps ([k = 0]: the page first
    opened).  A fixed function: one snapshot of the site. *)
Definition Site : Type := nat -> Page.

(** ** Runs *)

Inductive JsError : Type :=
| ReferenceError   (* an identifier that is not defined *)
| TimeoutError     (* a Playwright wait that ran out *)
| StrictModeError  (* a locator action on more than one element *)
| ExpectError      (* a failed [expect] *)
| PageError.       (* a Playwright call on a page that is gone *)

Inductive Message : Type :=
| MsgNextPageFailed   (* "Next page did not load properly ..." *)
| MsgPageHtmlHeading  (* "[Page HTML]" *)
| MsgPageHtml         (* the text that [page.content()] gave *)
| MsgCountMismatch    (* "Could not get an equal number ..." *)
| MsgPageHeader (index : Z) (bound : TimeValue) (n_athings n_ages n_scores : nat)
| MsgNotInOrder       (* "Articles are not in newest order!" *)
| MsgPageChecked      (* "Successfully checked page for newest order!" *)
| MsgSuccess.         (* "Test successful! ..." *)

Inductive Event : Type :=
| EvLaunch                       (* browser, context and page are created *)
| EvGoto (offset : option Z)     (* page.goto, with the [?n=] argument if any *)
| EvExpectMore                   (* expect(more_button).toHaveCount(1) *)
| EvWait (ms : double)           (* page.waitForTimeout *)
| EvClick                        (* more_button.click() *)
| EvEntry (index : Z) (ts : TimeValue) (id title : JsString)
| EvCompare (ts bound : TimeValue)   (* timestamp > newest_timestamp *)
| EvLog (m : Message)
| EvClose.                       (* page.close() *)

Inductive Outcome : Type :=
| ProcessExit (code : Z)   (* process.exit(code) *)
| Uncaught (e : JsError).  (* an exception no one catches *)

(** The status the operating system sees.  [process.exit] keeps the low
    byte of its argument; a rejected promise that nobody handles makes Node
    (version 15 and later, which Playwright requires) exit with status 1. *)
Definition exit_status (o : Outcome) : Z :=
  match o with
  | ProcessExit c => c mod 256
  | Uncaught _ => 1
  end.

Inductive Res (A : Type) : Type :=
| Ret (a : A)
| Halt (o : Outcome).
Arguments Ret {A} a.
Arguments Halt {A} o.

(** A computation: the events it produced, in order, and how it ended. *)
Definition Run (A : Type) : Type := (list Event * Res A)%type.

Definition ret {A} (a : A) : Run A := ([], Ret a).
Definition halt {A} (o : Outcome) : Run A := ([], Halt o).
Definition emit (e : Event) : Run unit := ([e], Ret tt).

Definition bind {A B} (m : Run A) (f : A -> Run B) : Run B :=
  match m with
  | (l, Ret a) => let (l', r) := f a in (l ++ l', r)
  | (l, Halt o) => (l, Halt o)
  end.

Declare Scope run_scope.
Delimit Scope run_scope with run.
Notation "x <- m ;; k" := (bind m (fun x => k))
  (at level 61, m at next level, right associativity) : run_scope.
Notation "m ;; k" := (bind m (fun _ => k))
  (at level 61, right associativity) : run_scope.
Local Open Scope run_scope.

(** [locator.nth(i)] followed by a read: the element when there is one, a
    timeout otherwise. *)
Definition nth_or_timeout {A} (l : list A) (i : nat) : Run A :=
  match nth_error l i with
  | Some a => ret a
  | None => halt (Uncaught TimeoutError)
  end.

(** [random_delay(ms_min_time, ms_range)], line 190, on the value [r] that
    [Math.random()] returned. *)
Definition random_delay (ms_min_time ms_range r : double) : double :=
  double_add ms_min_time (double_floor (double_mul r ms_range)).

(** The cursor carried from page to page: [article_index] and
    [newest_timestamp]. *)
Definition Cursor : Type := (Z * TimeValue)%type.

(** The body of the [for] loop of [validateArticlesOnPage] (lines 145-173,
    and again at lines 324-349 and 454-479, where only the wording of the
    log lines differs), run [k] times from position [i]. *)
Fixpoint check_articles (p : Page) (k i : nat) (c : Cursor) : Run Cursor :=
  match k with
  | O => ret c
  | S k' =>
      let '(article_index, newest_timestamp) := c in
      title <- nth_or_timeout (athings p) i ;;
      id_attr <- nth_or_timeout (scores p) i ;;
      timestamp <- nth_or_timeout (ages p) i ;;
      emit (EvEntry article_index timestamp (substring_from 6 id_attr) title) ;;
      emit (EvCompare timestamp newest_timestamp) ;;
      if date_gt timestamp newest_timestamp
      then emit (EvLog MsgNotInOrder) ;; halt (ProcessExit (-1))
      else check_articles p k' (S i) (article_index + 1, timestamp)
  end.

(** The count check of lines 121-129.  The script calls a bare [exit], which
    no line of it defines: the call raises a ReferenceError. *)
Definition check_counts (p : Page) : Run unit :=
  let count_ages := List.length (ages p) in
  let count_athings := List.length (athings p) in
  let count_scores := List.length (scores p) in
  if negb (count_ages =? count_athings)%nat || negb (count_ages =? count_scores)%nat
  then emit (EvLog MsgCountMismatch) ;; halt (Uncaught ReferenceError)
  else ret tt.

Definition page_header (p : Page) (c : Cursor) : Event :=
  EvLog (MsgPageHeader (fst c) (snd c)
           (List.length (athings p)) (List.length (ages p)) (List.length (scores p))).

(** [page.waitForSelector] on the three classes, in the order the script
    waits for them. *)
Definition wait_selectors (p : Page) : Run unit :=
  if negb (sel_age p) then halt (Uncaught TimeoutError)
  else if negb (sel_athing p) then halt (Uncaught TimeoutError)
  else if negb (sel_score p) then halt (Uncaught TimeoutError)
  else ret tt.

(** [more_button.click()] on the page [p] now shown. *)
Definition click_more (p : Page) : Run unit :=
  match morelinks p with
  | O => halt (Uncaught TimeoutError)
  | S O => emit EvClick
  | S (S _) => halt (Uncaught StrictModeError)
  end.

(** Adds the events [l] in front of a run that may have run out of fuel. *)
Definition after (l : list Event) (r : option (list Event * Outcome))
  : option (list Event * Outcome) :=
  match r with
  | Some (l', o) => Some (l ++ l', o)
  | None => None
  end.

(** ** The final script (lines 1-195) *)

Module ClickWalker.

(** [validateArticlesOnPage], lines 109-182. *)
Definition validateArticlesOnPage (article_table : Page) (article_index : Z)
    (num_of_articles_to_validate : Z) (newest_timestamp : TimeValue) : Run Cursor :=
  check_counts article_table ;;
  emit (page_header article_table (article_index, newest_timestamp)) ;;
  let num_of_articles_to_check_on_page :=
    Z.min (Z.of_nat (List.length (athings article_table)))
          (num_of_articles_to_validate - article_index + 1) in
  c <- check_articles article_table (Z.to_nat num_of_articles_to_check_on_page) 0
         (article_index, newest_timestamp) ;;
  emit (EvLog MsgPageChecked) ;;
  ret c.

Section Walk.

(** [site]: the snapshot; [rand]: the successive results of
    [Math.random()]; [T]: [num_of_articles_to_validate], which the script
    sets to 100. *)
Variable site : Site.
Variable rand : nat -> double.
Variable T : Z.

(** One turn of the [while] loop, lines 56-87, on the page number [cur]
    with [draws] random numbers already used. *)
Definition loop_body (cur draws : nat) (c : Cursor) : Run Cursor :=
  emit (EvWait (random_delay (double_of_Z 200) (double_of_Z 800) (rand draws))) ;;
  click_more (site cur) ;;
  emit (EvWait (random_delay (double_of_Z 200) (double_of_Z 800)
                  (rand (S draws)))) ;;
  let p := site (S cur) in
  if negb (morelinks p =? 1)%nat
  then
    emit (EvLog MsgNextPageFailed) ;;
    emit (EvLog MsgPageHtmlHeading) ;;
    (if content_loads p then emit (EvLog MsgPageHtml)
     else halt (Uncaught PageError)) ;;
    halt (ProcessExit (-1))
  else
    wait_selectors p ;;
    validateArticlesOnPage p (fst c) T (snd c).

(** The [while] loop of lines 54-89 and what follows it (lines 92-98).
    [fuel] bounds the number of turns; [None] means the bound was
    reached with the loop still running. *)
Fixpoint while_loop (fuel : nat) (cur draws : nat) (c : Cursor)
  : option (list Event * Outcome) :=
  if fst c <=? T then
    match fuel with
    | O => None
    | S fuel' =>
        match loop_body cur draws c with
        | (l, Halt o) => Some (l, o)
        | (l, Ret c') => after l (while_loop fuel' (S cur) (S (S draws)) c')
        end
    end
  else Some ([EvClose; EvLog MsgSuccess], ProcessExit 0).

(** [sortHackerNewsArticles], lines 28-99, started at time [now]. *)
Definition sortHackerNewsArticles (now : Z) (fuel : nat)
  : option (list Event * Outcome) :=
  let article_index := 1 in
  let newest_timestamp := Valid now in
  let opening :=
    emit EvLaunch ;;
    emit (EvGoto None) ;;
    emit EvExpectMore ;;
    if (morelinks (site 0) =? 1)%nat then ret tt else halt (Uncaught ExpectError) in
  match opening with
  | (l, Halt o) => Some (l, o)
  | (l, Ret _) => after l (while_loop fuel 0 0 (article_index, newest_timestamp))
  end.

End Walk.

End ClickWalker.

(** ** The first draft (lines 362-491) *)

Module OffsetWalker.

(** [validateArticlesOnPage], lines 412-486.  [article_table.waitFor()]
    and the three [waitForSelector] calls come first; the number of
    entries to check has no [+ 1]. *)
Definition validateArticlesOnPage (page : Page) (article_index : Z)
    (num_of_articles_to_validate : Z) (newest_timestamp : TimeValue) : Run Cursor :=
  (if table_shown page then ret tt else halt (Uncaught TimeoutError)) ;;
  wait_selectors page ;;
  check_counts page ;;
  emit (page_header page (article_index, newest_timestamp)) ;;
  let num_of_articles_to_check_on_page :=
    Z.min (Z.of_nat (List.length (athings page)))
          (num_of_articles_to_validate - article_index) in
  c <- check_articles page (Z.to_nat num_of_articles_to_check_on_page) 0
         (article_index, newest_timestamp) ;;
  emit (EvLog MsgPageChecked) ;;
  ret c.

Section Walk.

(** [listing n]: what [/newest?n=n] shows in the snapshot. *)
Variable listing : Z -> Page.
Variable T : Z.

(** The [while] loop of lines 395-406 and lines 407-408. *)
Fixpoint while_loop (fuel : nat) (c : Cursor) : option (list Event * Outcome) :=
  if fst c <? T then
    match fuel with
    | O => None
    | S fuel' =>
        let body :=
          emit (EvGoto (Some (fst c))) ;;
          (if negb (sel_age (listing (fst c))) then halt (Uncaught TimeoutError)
           else ret tt) ;;
          validateArticlesOnPage (listing (fst c)) (fst c) T (snd c) in
        match body with
        | (l, Halt o) => Some (l, o)
        | (l, Ret c') => after l (while_loop fuel' c')
        end
    end
  else Some ([EvClose], ProcessExit 0).

(** [sortHackerNewsArticles], lines 372-409. *)
Definition sortHackerNewsArticles (now : Z) (fuel : nat)
  : option (list Event * Outcome) :=
  after [EvLaunch] (while_loop fuel (1, Valid now)).

End Walk.

End OffsetWalker.

(** ** Reading a trace *)

(** The timestamps compared, in order. *)
Fixpoint compared (l : list Event) : list TimeValue :=
  match l with
  | [] => []
  | EvCompare ts _ :: l' => ts :: compared l'
  | _ :: l' => compared l'
  end.

(** The number of page loads: [goto]s and clicks on "More". *)
Fixpoint fetches (l : list Event) : nat :=
  match l with
  | [] => O
  | EvGoto _ :: l' => S (fetches l')
  | EvClick :: l' => S (fetches l')
  | _ :: l' => fetches l'
  end.

Fixpoint clicks (l : list Event) : nat :=
  match l with
  | [] => O
  | EvClick :: l' => S (clicks l')
  | _ :: l' => clicks l'
  end.

Definition is_close (e : Event) : bool :=
  match e with EvClose => true | _ => false end.

Definition is_wait (e : Event) : bool :=
  match e with EvWait _ => true | _ => false end.

(** A trace without its pacing delays. *)
Definition without_waits (l : list Event) : list Event :=
  filter (fun e => negb (is_wait e)) l.

(** Timestamps in newest-first order: each one [>=] the next. *)
Fixpoint newest_first (l : list TimeValue) : bool :=
  match l with
  | a :: (b :: _) as l' => date_ge a b && newest_first l'
  | _ => true
  end.

(** The per-entry test of line 160 passes along [l], started from the
    bound [b]: no timestamp is [>] the one before it. *)
Fixpoint all_accepted (b : TimeValue) (l : list TimeValue) : bool :=
  match l with
  | [] => true
  | t :: l' => negb (date_gt t b) && all_accepted t l'
  end.

(** How many entries of [l] the loop reaches from the bound [b]: all of
    them, or those up to the first one that fails the test. *)
Fixpoint evaluated (b : TimeValue) (l : list TimeValue) : nat :=
  match l with
  | [] => O
  | t :: l' => S (if date_gt t b then O else evaluated t l')
  end.

Definition counts_match (p : Page) : bool :=
  (List.length (ages p) =? List.length (athings p))%nat
  && (List.length (ages p) =? List.length (scores p))%nat.

(** The events a page check produces: entry lines, comparisons, banners. *)
Definition page_event (e : Event) : bool :=
  match e with
  | EvEntry _ _ _ _ | EvCompare _ _ | EvLog _ => true
  | _ => false
  end.

(** The banners that announce a failure. *)
Definition failure_banner (e : Event) : bool :=
  match e with
  | EvLog MsgNextPageFailed | EvLog MsgCountMismatch | EvLog MsgNotInOrder => true
  | _ => false
  end.

(** A listing the walker can use: one "More" link, the awaited elements
    shown. *)
Definition navigable (p : Page) : bool :=
  (morelinks p =? 1)%nat && sel_age p && sel_athing p && sel_score p.

(** ** Sample listings and predicates on runs *)

(** A well-formed listing with the given timestamps. *)
Definition listing_of (l : list TimeValue) : Page :=
  mkPage 1 true true true true
    l (map (fun _ => js "title") l) (map (fun _ => js "score_1") l) true.

(** A time of day, in milliseconds. *)
Definition at_time (h m : Z) : TimeValue := Valid ((h * 60 + m) * 60000).

(** [Math.random()] giving 1/2 each time. *)
Definition half : nat -> double :=
  fun _ => S754_finite false 4503599627370496 (-53).

(** Scenario C of the specification: five timestamps, four titles. *)
Definition scenario_C_page : Page :=
  mkPage 1 true true true true
    (repeat (at_time 10 0) 5) (repeat (js "title") 4) (repeat (js "score_1") 5)
    true.

(** A site whose first page is usable and whose later pages show no "More"
    link. *)
Definition site_without_more : Site :=
  fun k => match k with
           | O => listing_of []
           | S _ => mkPage 0 true true true true [] [] [] true
           end.

(** A site whose first page after the click is blank and whose later pages
    hold thirty entries. *)
Definition site_blank_then_thirty : Site :=
  fun k => match k with
           | S O => listing_of []
           | _ => listing_of (repeat (Valid 0) 30)
           end.

(** What every run of the final script starts with (lines 30-51). *)
Definition opening_events : list Event := [EvLaunch; EvGoto None; EvExpectMore].



(** Two finished or unfinished walks that differ in their delays only. *)
Definition same_verdict (R1 R2 : option (list Event * Outcome)) : Prop :=
  match R1, R2 with
  | Some (l1, o1), Some (l2, o2) => o1 = o2 /\ without_waits l1 = without_waits l2
  | None, None => True
  | _, _ => False
  end.

(** A page that passes every wait and shows one "More" link but has no
    entry in its article table. *)
Definition blank (p : Page) : Prop :=
  navigable p = true /\ ages p = [] /\ athings p = [] /\ scores p = [].

(** The delays waited, in order. *)
Fixpoint waits (l : list Event) : list double :=
  match l with
  | [] => []
  | EvWait ms :: l' => ms :: waits l'
  | _ :: l' => waits l'
  end.

(** The bound each comparison was made against, in order. *)
Fixpoint bounds (l : list Event) : list TimeValue :=
  match l with
  | [] => []
  | EvCompare _ b :: l' => b :: bounds l'
  | _ :: l' => bounds l'
  end.

(** Every [?n=] offset asked of [page.goto] is one more than the number of
    comparisons made before it, [seen] of them having been made before the
    trace starts. *)
Fixpoint offsets_follow (seen : Z) (l : list Event) : bool :=
  match l with
  | [] => true
  | EvGoto (Some n) :: l' => (n =? seen + 1) && offsets_follow seen l'
  | EvCompare _ _ :: l' => offsets_follow (seen + 1) l'
  | _ :: l' => offsets_follow seen l'
  end.

(** The event a trace ends with. *)
Definition last_event (l : list Event) : option Event :=
  match rev l with
  | [] => None
  | e :: _ => Some e
  end.

(** Two sites that differ in the entries of the listing opened first: in
    order on one, out of order and with an invalid date on the other. *)
Definition site_first_in_order : Site :=
  fun _ => listing_of [at_time 10 0; at_time 9 59].

Definition site_first_out_of_order : Site :=
  fun k => match k with
           | O => listing_of [at_time 9 0; InvalidDate; at_time 11 0]
           | S _ => listing_of [at_time 10 0; at_time 9 59]
           end.

(** One turn of the first draft's loop (lines 396-404) on the listing [p]
    shown at offset [idx], written with the page check of the final
    script. *)
Definition offset_turn (p : Page) (idx T : Z) (b : TimeValue) : Run Cursor :=
  if table_shown p && sel_age p && sel_athing p && sel_score p
  then (let (l, r) := ClickWalker.validateArticlesOnPage p idx (T - 1) b in
        (EvGoto (Some idx) :: l, r))
  else ([EvGoto (Some idx)], Halt (Uncaught TimeoutError)).

(** What [Math.random()] may return: a double that is at least 0 and less
    than 1. *)
Definition unit_double (r : double) : bool :=
  match r with
  | S754_zero false => true
  | S754_finite false m e =>
      bounded 53 1024 m e && (e <? 0) && (Z.pos m <? 2 ^ (- e))
  | _ => false
  end.

(** The double [3383329220062085 / 2^52], about 0.7512: its product with
    800 is rounded up to 601. *)
Definition rounding_sample : double :=
  S754_finite false 6766658440124170 (-53).

(** ** Facts about traces *)

Lemma navigable_parts (p : Page) :
  navigable p = true ->
  (morelinks p =? 1)%nat = true
  /\ sel_age p && sel_athing p && sel_score p = true.
Proof.
  unfold navigable.
  destruct (morelinks p =? 1)%nat; [|discriminate].
  cbn [andb]. auto.
Qed.

Lemma compared_app (l1 l2 : list Event) :
  compared (l1 ++ l2) = compared l1 ++ compared l2.
Proof.
  induction l1 as [|e l1 IH]; [reflexivity|].
  destruct e; simpl; rewrite ?IH; reflexivity.
Qed.

Lemma clicks_app (l1 l2 : list Event) :
  clicks (l1 ++ l2) = (clicks l1 + clicks l2)%nat.
Proof.
  induction l1 as [|e l1 IH]; [reflexivity|].
  destruct e; simpl; rewrite ?IH; reflexivity.
Qed.

Lemma fetches_app (l1 l2 : list Event) :
  fetches (l1 ++ l2) = (fetches l1 + fetches l2)%nat.
Proof.
  induction l1 as [|e l1 IH]; [reflexivity|].
  destruct e; simpl; rewrite ?IH; reflexivity.
Qed.

Lemma without_waits_app (l1 l2 : list Event) :
  without_waits (l1 ++ l2) = without_waits l1 ++ without_waits l2.
Proof. apply filter_app. Qed.

Lemma page_events_quiet (l : list Event) :
  forallb page_event l = true ->
  clicks l = O /\ fetches l = O /\ existsb is_close l = false
  /\ without_waits l = l.
Proof.
  induction l as [|e l IH]; [repeat split; reflexivity|].
  simpl. intros H. apply andb_prop in H. destruct H as [He Hl].
  destruct (IH Hl) as (Hc & Hf & Hx & Hw).
  destruct e; try discriminate He; simpl; unfold without_waits in *;
    simpl; rewrite ?Hw; auto.
Qed.

(** ** Facts about the acceptance test *)

Lemma last_cons_any {A} (x : A) (l : list A) (d d' : A) :
  last (x :: l) d = last (x :: l) d'.
Proof.
  revert x. induction l as [|y l IH]; intros x; [reflexivity|].
  change (last (y :: l) d = last (y :: l) d'). apply IH.
Qed.

Lemma last_cons_bound {A} (x : A) (l : list A) (d : A) :
  last (x :: l) d = last l x.
Proof.
  destruct l as [|y l]; [reflexivity|].
  change (last (y :: l) d = last (y :: l) x). apply last_cons_any.
Qed.

Lemma all_accepted_app (b : TimeValue) (l1 l2 : list TimeValue) :
  all_accepted b (l1 ++ l2) = all_accepted b l1 && all_accepted (last l1 b) l2.
Proof.
  revert b. induction l1 as [|t l1 IH]; intros b; [reflexivity|].
  cbn [app all_accepted]. rewrite IH, andb_assoc, last_cons_bound.
  reflexivity.
Qed.

Lemma evaluated_le (b : TimeValue) (l : list TimeValue) :
  (evaluated b l <= List.length l)%nat.
Proof.
  revert b. induction l as [|t l IH]; intros b; simpl; [lia|].
  destruct (date_gt t b); [lia|]. specialize (IH t). lia.
Qed.

Lemma evaluated_all (b : TimeValue) (l : list TimeValue) :
  all_accepted b l = true -> evaluated b l = List.length l.
Proof.
  revert b. induction l as [|t l IH]; intros b; simpl; [reflexivity|].
  destruct (date_gt t b); simpl; [discriminate|].
  intros H. rewrite (IH _ H). reflexivity.
Qed.

Lemma evaluated_pos_of_rejected (b : TimeValue) (l : list TimeValue) :
  all_accepted b l = false -> (0 < evaluated b l)%nat.
Proof. destruct l; simpl; [discriminate|lia]. Qed.

Lemma date_gt_irrefl (t : TimeValue) : date_gt t t = false.
Proof. destruct t; simpl; [apply Z.ltb_irrefl|reflexivity]. Qed.

Lemma date_gt_invalid_l (b : TimeValue) : date_gt InvalidDate b = false.
Proof. reflexivity. Qed.

Lemma date_gt_invalid_r (t : TimeValue) : date_gt t InvalidDate = false.
Proof. destruct t; reflexivity. Qed.

Lemma not_gt_valid_ge (t b : TimeValue) :
  is_valid t = true -> is_valid b = true ->
  date_gt t b = false -> date_ge b t = true.
Proof.
  destruct t, b; simpl; try discriminate. intros _ _ H.
  apply Z.ltb_ge in H. apply Z.leb_le. exact H.
Qed.

(** Among valid dates, passing the test is being in newest-first order. *)
Lemma accepted_valid_newest_first (b : TimeValue) (l : list TimeValue) :
  is_valid b = true -> forallb is_valid l = true ->
  all_accepted b l = true -> newest_first (b :: l) = true.
Proof.
  revert b. induction l as [|t l IH]; intros b Hb Hl Ha; [reflexivity|].
  simpl in Hl, Ha. apply andb_prop in Hl, Ha.
  destruct Hl as [Ht Hl], Ha as [Hg Ha].
  apply negb_true_iff in Hg.
  change (date_ge b t && newest_first (t :: l) = true).
  rewrite (not_gt_valid_ge t b Ht Hb Hg), (IH t Ht Hl Ha). reflexivity.
Qed.

(** ** The page check *)

Lemma skipn_nth_error {A} (l : list A) (i : nat) (a : A) :
  nth_error l i = Some a -> skipn i l = a :: skipn (S i) l.
Proof.
  revert l. induction i as [|i IH]; intros [|x l] H; try discriminate.
  - injection H as ->. reflexivity.
  - simpl in H. apply IH in H. exact H.
Qed.

Lemma nth_error_in_range {A} (l : list A) (i : nat) :
  (i < List.length l)%nat -> exists a, nth_error l i = Some a.
Proof.
  intros H. destruct (nth_error l i) eqn:E; [eauto|].
  apply nth_error_None in E. lia.
Qed.

Lemma counts_match_lengths (p : Page) :
  counts_match p = true ->
  List.length (athings p) = List.length (ages p)
  /\ List.length (scores p) = List.length (ages p).
Proof.
  unfold counts_match. intros H. apply andb_prop in H. destruct H as [H1 H2].
  apply Nat.eqb_eq in H1, H2. split; congruence.
Qed.

(** One turn of the loop on an entry that is there. *)
Lemma check_articles_step (p : Page) (k i : nat) (idx : Z) (b : TimeValue)
    (title id_attr : JsString) (ts : TimeValue) :
  nth_error (athings p) i = Some title ->
  nth_error (scores p) i = Some id_attr ->
  nth_error (ages p) i = Some ts ->
  check_articles p (S k) i (idx, b) =
    if date_gt ts b
    then ([EvEntry idx ts (substring_from 6 id_attr) title; EvCompare ts b;
           EvLog MsgNotInOrder], Halt (ProcessExit (-1)))
    else (let (l, r) := check_articles p k (S i) (idx + 1, ts) in
          (EvEntry idx ts (substring_from 6 id_attr) title :: EvCompare ts b :: l, r)).
Proof.
  intros Ha Hs Hg. cbn [check_articles]. unfold nth_or_timeout.
  rewrite Ha, Hs, Hg. unfold bind, ret, emit, halt.
  destruct (date_gt ts b); [reflexivity|].
  destruct (check_articles p k (S i) (idx + 1, ts)) as [l r]. reflexivity.
Qed.

(** The loop over a page whose three counts agree: it returns when every
    entry in its range passes the test, and stops the process at the first
    one that does not. *)
Lemma check_articles_spec (p : Page) (k i : nat) (idx : Z) (b : TimeValue) :
  counts_match p = true -> (i + k <= List.length (ages p))%nat ->
  exists l,
    check_articles p k i (idx, b) =
      (l, if all_accepted b (firstn k (skipn i (ages p)))
          then Ret (idx + Z.of_nat k, last (firstn k (skipn i (ages p))) b)
          else Halt (ProcessExit (-1)))
    /\ forallb page_event l = true
    /\ compared l = firstn (evaluated b (firstn k (skipn i (ages p))))
                      (firstn k (skipn i (ages p)))
    /\ existsb failure_banner l = negb (all_accepted b (firstn k (skipn i (ages p)))).
Proof.
  intros Hc. destruct (counts_match_lengths p Hc) as [Hla Hls].
  revert i idx b. induction k as [|k IH]; intros i idx b Hik.
  - exists []. simpl. rewrite Z.add_0_r. repeat split; reflexivity.
  - destruct (nth_error_in_range (ages p) i) as [ts Hts]; [lia|].
    destruct (nth_error_in_range (athings p) i) as [title Hti]; [lia|].
    destruct (nth_error_in_range (scores p) i) as [ida Hid]; [lia|].
    rewrite (check_articles_step p k i idx b title ida ts Hti Hid Hts).
    rewrite (skipn_nth_error _ _ _ Hts). cbn [firstn all_accepted evaluated].
    destruct (date_gt ts b) eqn:Hgt.
    + eexists. split; [reflexivity|]. repeat split; reflexivity.
    + destruct (IH (S i) (idx + 1) ts) as (l & Hrun & Hpe & Hcmp & Hfb); [lia|].
      rewrite Hrun. eexists. split; [|repeat split].
      * cbn [negb andb]. rewrite last_cons_bound.
        replace (idx + 1 + Z.of_nat k) with (idx + Z.of_nat (S k)) by lia.
        reflexivity.
      * simpl. exact Hpe.
      * cbn [compared firstn]. rewrite Hcmp. reflexivity.
      * simpl. exact Hfb.
Qed.

Lemma check_counts_spec (p : Page) :
  check_counts p =
    if counts_match p then ([], Ret tt)
    else ([EvLog MsgCountMismatch], Halt (Uncaught ReferenceError)).
Proof.
  unfold check_counts, counts_match.
  destruct (List.length (ages p) =? List.length (athings p))%nat;
    destruct (List.length (ages p) =? List.length (scores p))%nat; reflexivity.
Qed.

(** [validateArticlesOnPage] of the final script, as a function of the
    page and the cursor. *)
Lemma validate_spec (p : Page) (idx T : Z) (b : TimeValue) :
  let n := Z.to_nat (Z.min (Z.of_nat (List.length (athings p))) (T - idx + 1)) in
  exists l,
    ClickWalker.validateArticlesOnPage p idx T b =
      (l, if counts_match p
          then if all_accepted b (firstn n (ages p))
               then Ret (idx + Z.of_nat n, last (firstn n (ages p)) b)
               else Halt (ProcessExit (-1))
          else Halt (Uncaught ReferenceError))
    /\ forallb page_event l = true
    /\ compared l = (if counts_match p
                     then firstn (evaluated b (firstn n (ages p))) (firstn n (ages p))
                     else [])
    /\ existsb failure_banner l
       = negb (counts_match p && all_accepted b (firstn n (ages p))).
Proof.
  intros n. unfold ClickWalker.validateArticlesOnPage.
  rewrite check_counts_spec. fold n.
  destruct (counts_match p) eqn:Hc; cbn [negb].
  - destruct (counts_match_lengths p Hc) as [Hla Hls].
    destruct (check_articles_spec p n 0 idx b Hc) as (l & Hrun & Hpe & Hcmp & Hfb).
    { subst n. lia. }
    cbn [skipn] in *.
    unfold bind, ret, emit, halt, page_header. cbn [fst snd]. rewrite Hrun.
    destruct (all_accepted b (firstn n (ages p))).
    + eexists. split; [reflexivity|]. cbn [app]. repeat split.
      * cbn [forallb page_event andb]. rewrite forallb_app, Hpe. reflexivity.
      * cbn [compared]. rewrite compared_app, Hcmp. cbn [compared]. apply app_nil_r.
      * cbn [existsb failure_banner orb]. rewrite existsb_app, Hfb. reflexivity.
    + eexists. split; [reflexivity|]. cbn [app]. repeat split.
      * cbn [forallb page_event andb]. exact Hpe.
      * cbn [compared]. exact Hcmp.
      * cbn [existsb failure_banner orb]. exact Hfb.
  - eexists. split; [reflexivity|]. repeat split; reflexivity.
Qed.

Lemma accepted_prefix_rejected (b : TimeValue) (l : list TimeValue) :
  all_accepted b l = false ->
  all_accepted b (firstn (evaluated b l) l) = false.
Proof.
  revert b. induction l as [|t l IH]; intros b; [discriminate|].
  cbn [all_accepted evaluated]. destruct (date_gt t b) eqn:Hgt.
  - intros _. cbn [firstn all_accepted]. rewrite Hgt. reflexivity.
  - cbn [negb andb]. intros H. cbn [firstn all_accepted]. rewrite Hgt.
    cbn [negb andb]. apply IH. exact H.
Qed.

(** ** One turn of the main loop *)

Section ClickWalkerFacts.

Variable site : Site.
Variable rand : nat -> double.
Variable T : Z.

Local Abbreviation loop_body := (ClickWalker.loop_body site rand T).
Local Abbreviation while_loop := (ClickWalker.while_loop site rand T).

Lemma loop_body_spec (cur draws : nat) (idx : Z) (b : TimeValue) :
  let d1 := random_delay (double_of_Z 200) (double_of_Z 800) (rand draws) in
  let d2 := random_delay (double_of_Z 200) (double_of_Z 800) (rand (S draws)) in
  let p := site (S cur) in
  loop_body cur draws (idx, b) =
    match morelinks (site cur) with
    | O => ([EvWait d1], Halt (Uncaught TimeoutError))
    | S O =>
        if negb (morelinks p =? 1)%nat
        then (if content_loads p
              then ([EvWait d1; EvClick; EvWait d2; EvLog MsgNextPageFailed;
                     EvLog MsgPageHtmlHeading; EvLog MsgPageHtml],
                    Halt (ProcessExit (-1)))
              else ([EvWait d1; EvClick; EvWait d2; EvLog MsgNextPageFailed;
                     EvLog MsgPageHtmlHeading],
                    Halt (Uncaught PageError)))
        else if sel_age p && sel_athing p && sel_score p
        then (let (l, r) := ClickWalker.validateArticlesOnPage p idx T b in
              (EvWait d1 :: EvClick :: EvWait d2 :: l, r))
        else ([EvWait d1; EvClick; EvWait d2], Halt (Uncaught TimeoutError))
    | S (S _) => ([EvWait d1], Halt (Uncaught StrictModeError))
    end.
Proof.
  intros d1 d2 p. unfold ClickWalker.loop_body, click_more, wait_selectors.
  fold d1 d2 p. cbn [fst snd].
  destruct (morelinks (site cur)) as [|[|m]]; try reflexivity.
  destruct (negb (morelinks p =? 1)%nat);
    [destruct (content_loads p); reflexivity|].
  destruct (sel_age p), (sel_athing p), (sel_score p); cbn [negb andb];
    try reflexivity.
  unfold bind, emit, ret.
  destruct (ClickWalker.validateArticlesOnPage p idx T b) as [l [c|o]];
    reflexivity.
Qed.

(** A turn that returns: the next page was usable, every entry in range
    passed the test, and the cursor moved by that many entries. *)
Lemma loop_body_ret (cur draws : nat) (idx idx' : Z) (b b' : TimeValue)
    (l : list Event) :
  loop_body cur draws (idx, b) = (l, Ret (idx', b')) ->
  let p := site (S cur) in
  let n := Z.to_nat (Z.min (Z.of_nat (List.length (athings p))) (T - idx + 1)) in
  navigable p = true /\ counts_match p = true
  /\ compared l = firstn n (ages p) /\ List.length (compared l) = n
  /\ all_accepted b (compared l) = true
  /\ idx' = idx + Z.of_nat n /\ b' = last (compared l) b
  /\ clicks l = 1%nat /\ fetches l = 1%nat
  /\ existsb is_close l = false /\ existsb failure_banner l = false.
Proof.
  intros H p n. rewrite loop_body_spec in H. fold p in H.
  destruct (morelinks (site cur)) as [|[|m]]; try discriminate H.
  destruct (morelinks p =? 1)%nat eqn:Hm; cbn [negb] in H;
    [|destruct (content_loads p); discriminate H].
  destruct (sel_age p && sel_athing p && sel_score p) eqn:Hsel;
    [|discriminate H].
  destruct (validate_spec p idx T b) as (lv & Hv & Hpe & Hcmp & Hfb).
  fold n in Hv, Hcmp, Hfb. rewrite Hv in H.
  destruct (counts_match p) eqn:Hc; [|discriminate H].
  destruct (all_accepted b (firstn n (ages p))) eqn:Hacc; [|discriminate H].
  injection H as <- <- <-.
  rewrite (evaluated_all _ _ Hacc), firstn_all in Hcmp.
  destruct (page_events_quiet lv Hpe) as (Hcl & Hfe & Hx & _).
  cbn [compared clicks fetches existsb is_close failure_banner orb].
  rewrite Hcmp, Hcl, Hfe, Hx, Hfb, Hacc.
  unfold navigable. rewrite Hm. repeat rewrite andb_assoc in Hsel.
  cbn [andb]. rewrite Hsel. repeat split; try reflexivity.
  destruct (counts_match_lengths p Hc) as [Hla _].
  rewrite length_firstn. subst n. lia.
Qed.

(** A turn that stops the process: the status is not 0, the page was
    never closed, and either an entry failed the test or no entry was
    compared at all. *)
Lemma loop_body_halt (cur draws : nat) (idx : Z) (b : TimeValue)
    (l : list Event) (o : Outcome) :
  loop_body cur draws (idx, b) = (l, Halt o) ->
  exit_status o <> 0
  /\ existsb is_close l = false /\ (clicks l <= 1)%nat
  /\ (all_accepted b (compared l) = false \/ compared l = []).
Proof.
  intros H. rewrite loop_body_spec in H.
  set (p := site (S cur)) in *.
  assert (Hsimple : forall l0 e,
            compared l0 = [] -> existsb is_close l0 = false ->
            (clicks l0 <= 1)%nat ->
            (l0, @Halt Cursor e) = (l, Halt o) ->
            exit_status e <> 0 ->
            exit_status o <> 0
            /\ existsb is_close l = false /\ (clicks l <= 1)%nat
            /\ (all_accepted b (compared l) = false \/ compared l = [])).
  { intros l0 e Hc0 Hx0 Hk0 E He. injection E as <- <-. auto. }
  destruct (morelinks (site cur)) as [|[|m]].
  - eapply Hsimple; [| | |exact H|]; cbn; auto; discriminate.
  - destruct (morelinks p =? 1)%nat eqn:Hm; cbn [negb] in H.
    + destruct (sel_age p && sel_athing p && sel_score p) eqn:Hsel.
      * destruct (validate_spec p idx T b) as (lv & Hv & Hpe & Hcmp & Hfb).
        rewrite Hv in H.
        destruct (page_events_quiet lv Hpe) as (Hcl & Hfe & Hx & _).
        destruct (counts_match p) eqn:Hc.
        -- match type of H with context [all_accepted b ?ts] =>
             destruct (all_accepted b ts) eqn:Hacc end; [discriminate H|].
           injection H as <- <-.
           cbn [compared clicks existsb is_close orb].
           rewrite Hcl, Hx, Hcmp. split; [vm_compute; discriminate|].
           split; [reflexivity|]. split; [lia|].
           left. apply accepted_prefix_rejected. exact Hacc.
        -- eapply Hsimple; [| | |exact H|]; cbn; rewrite ?Hcmp, ?Hx, ?Hcl;
             auto; discriminate.
      * eapply Hsimple; [| | |exact H|]; cbn; auto; discriminate.
    + destruct (content_loads p);
        (eapply Hsimple; [| | |exact H|]; cbn; auto; vm_compute; discriminate).
  - eapply Hsimple; [| | |exact H|]; cbn; auto; discriminate.
Qed.

Lemma after_some (l1 l : list Event) (o : Outcome)
    (r : option (list Event * Outcome)) :
  after l1 r = Some (l, o) -> exists l2, r = Some (l2, o) /\ l = l1 ++ l2.
Proof.
  destruct r as [[l2 o2]|]; [|discriminate].
  cbn. intros H. injection H as <- <-. eauto.
Qed.

(** What a finished walk looks like, from any cursor within the target:
    either it ended with [process.exit(0)], after closing the page, with
    every comparison passed and the count brought to [T]; or it ended
    with a status other than 0, the page never closed, an entry rejected
    or the count short of [T]. *)
Lemma while_loop_inv (fuel cur draws : nat) (idx : Z) (b : TimeValue)
    (l : list Event) (o : Outcome) :
  while_loop fuel cur draws (idx, b) = Some (l, o) -> idx <= T + 1 ->
  (o = ProcessExit 0
   /\ all_accepted b (compared l) = true
   /\ idx + Z.of_nat (List.length (compared l)) = T + 1
   /\ existsb failure_banner l = false
   /\ existsb is_close l = true)
  \/
  (exit_status o <> 0
   /\ (all_accepted b (compared l) = false
       \/ idx + Z.of_nat (List.length (compared l)) < T + 1)
   /\ existsb is_close l = false).
Proof.
  revert cur draws idx b l o.
  induction fuel as [|fuel IH]; intros cur draws idx b l o H Hidx;
    cbn [ClickWalker.while_loop fst] in H;
    destruct (idx <=? T) eqn:Hle;
    try discriminate H;
    try (injection H as <- <-; apply Z.leb_gt in Hle; left;
         cbn; repeat split; auto; lia).
  apply Z.leb_le in Hle.
  destruct (loop_body cur draws (idx, b)) as [l1 [[idx' b']|o1]] eqn:Hbody.
  - destruct (loop_body_ret _ _ _ _ _ _ _ Hbody)
      as (_ & _ & _ & Hlen & Hacc & Hidx' & Hb' & _ & _ & Hx & Hfb).
    apply after_some in H. destruct H as (l2 & Hrest & ->).
    assert (Hidx2 : idx' <= T + 1) by lia.
    rewrite compared_app, all_accepted_app, length_app, !existsb_app.
    rewrite Hacc, Hx, Hfb, <- Hb'. cbn [andb orb].
    destruct (IH _ _ _ _ _ _ Hrest Hidx2)
      as [(-> & Ha & Hn & Hf & Hc)|(Hs & Hd & Hc)].
    + left. repeat split; auto. lia.
    + right. repeat split; auto. destruct Hd as [Hd|Hd]; [left; exact Hd|].
      right. lia.
  - injection H as <- <-.
    destruct (loop_body_halt _ _ _ _ _ _ Hbody) as (Hs & Hx & _ & Hd).
    right. repeat split; auto. destruct Hd as [Hd|Hd]; [left; exact Hd|].
    right. rewrite Hd. cbn. lia.
Qed.

End ClickWalkerFacts.

(** ** The per-entry test *)

Lemma check_articles_head (p : Page) (k i : nat) (c : Cursor)
    (l : list Event) (r : Res Cursor) :
  check_articles p k i c = (l, r) ->
  l = [] \/ exists idx ts id title l', l = EvEntry idx ts id title :: l'.
Proof.
  destruct k as [|k]; destruct c as [idx b]; cbn [check_articles].
  - intros H. injection H as <- _. left. reflexivity.
  - unfold nth_or_timeout.
    destruct (nth_error (athings p) i) as [title|];
      [|intros H; injection H as <- _; left; reflexivity].
    destruct (nth_error (scores p) i) as [ida|];
      [|intros H; injection H as <- _; left; reflexivity].
    destruct (nth_error (ages p) i) as [ts|];
      [|intros H; injection H as <- _; left; reflexivity].
    unfold bind, ret, emit, halt. destruct (date_gt ts b).
    + intros H. injection H as <- _. right. cbn. eauto 6.
    + destruct (check_articles p k (S i) (idx + 1, ts)) as [l' r'].
      intros H. injection H as <- _. right. cbn. eauto 6.
Qed.

(** C1.  For an entry that [validateArticlesOnPage] evaluates (position [i]
    of the page, cursor [(idx, bound)]), the process is stopped at that
    entry, with [process.exit(-1)] and so a non-zero status, exactly when
    the entry's timestamp is strictly greater than the bound.  Otherwise the
    entry is accepted: the loop goes on with the count raised by one and the
    bound set to the entry's timestamp.  A timestamp equal to the bound is
    accepted. *)
Theorem C1_entry_rejected_iff_newer_than_bound
    (p : Page) (k i : nat) (idx : Z) (bound ts : TimeValue)
    (title id_attr : JsString) :
  nth_error (athings p) i = Some title ->
  nth_error (scores p) i = Some id_attr ->
  nth_error (ages p) i = Some ts ->
  let line := [EvEntry idx ts (substring_from 6 id_attr) title;
               EvCompare ts bound] in
  (date_gt ts bound = true <->
   check_articles p (S k) i (idx, bound)
   = (line ++ [EvLog MsgNotInOrder], Halt (ProcessExit (-1))))
  /\ exit_status (ProcessExit (-1)) <> 0
  /\ (date_gt ts bound = false ->
      check_articles p (S k) i (idx, bound)
      = (let (l, r) := check_articles p k (S i) (idx + 1, ts) in (line ++ l, r)))
  /\ (ts = bound -> date_gt ts bound = false)
  /\ (forall x y, ts = Valid x -> bound = Valid y ->
      (date_gt ts bound = true <-> y < x)).
Proof.
  intros Ha Hs Hg line.
  pose proof (check_articles_step p k i idx bound title id_attr ts Ha Hs Hg) as E.
  repeat split.
  - intros Hgt. rewrite E, Hgt. reflexivity.
  - intros H. rewrite E in H. destruct (date_gt ts bound); [reflexivity|].
    destruct (check_articles p k (S i) (idx + 1, ts)) as [l r] eqn:Hrest.
    injection H as Hl _.
    destruct (check_articles_head _ _ _ _ _ _ Hrest)
      as [->|(? & ? & ? & ? & ? & ->)]; discriminate Hl.
  - vm_compute. discriminate.
  - intros Hgt. rewrite E, Hgt. reflexivity.
  - intros ->. apply date_gt_irrefl.
  - subst. cbn. apply Z.ltb_lt.
  - subst. cbn. apply Z.ltb_lt.
Qed.

(** Scenario B of the specification: [10:00, 10:01] stops at the second
    entry. *)
Lemma C1_scenario_B :
  check_articles (listing_of [at_time 10 0; at_time 10 1]) 1 1 (2, at_time 10 0)
  = ([EvEntry 2 (at_time 10 1) (js "1") (js "title");
      EvCompare (at_time 10 1) (at_time 10 0); EvLog MsgNotInOrder],
     Halt (ProcessExit (-1))).
Proof.
  apply (proj1 (C1_entry_rejected_iff_newer_than_bound
                  (listing_of [at_time 10 0; at_time 10 1]) 0 1 2
                  (at_time 10 0) (at_time 10 1) (js "title") (js "score_1")
                  eq_refl eq_refl eq_refl)).
  reflexivity.
Defined.

(** ** Whole runs of the final script *)

Section ClickWalkerRuns.

Variable site : Site.
Variable rand : nat -> double.
Variable T : Z.

Local Abbreviation while_loop := (ClickWalker.while_loop site rand T).
Local Abbreviation run := (ClickWalker.sortHackerNewsArticles site rand T).

Lemma while_loop_done (fuel cur draws : nat) (idx : Z) (b : TimeValue) :
  T < idx ->
  while_loop fuel cur draws (idx, b)
  = Some ([EvClose; EvLog MsgSuccess], ProcessExit 0).
Proof.
  intros H. apply Z.leb_gt in H.
  destruct fuel; cbn [ClickWalker.while_loop fst]; rewrite H; reflexivity.
Qed.

Lemma run_cases (now : Z) (fuel : nat) (l : list Event) (o : Outcome) :
  run now fuel = Some (l, o) ->
  (morelinks (site 0%nat) <> 1%nat /\ l = opening_events
   /\ o = Uncaught ExpectError)
  \/ (morelinks (site 0%nat) = 1%nat
      /\ exists l', l = opening_events ++ l'
                    /\ while_loop fuel 0 0 (1, Valid now) = Some (l', o)).
Proof.
  unfold ClickWalker.sortHackerNewsArticles.
  destruct (morelinks (site 0%nat) =? 1)%nat eqn:Hm; cbn.
  - apply Nat.eqb_eq in Hm. intros H. right. split; [exact Hm|].
    destruct (while_loop fuel 0 0 (1, Valid now)) as [[l' o']|];
      [|discriminate H].
    cbn in H. injection H as <- <-. eauto.
  - apply Nat.eqb_neq in Hm. intros H. injection H as <- <-. left. auto.
Qed.

(** A run that ends with status 0. *)
Lemma run_success (now : Z) (fuel : nat) (l : list Event) (o : Outcome) :
  run now fuel = Some (l, o) -> exit_status o = 0 ->
  o = ProcessExit 0
  /\ all_accepted (Valid now) (compared l) = true
  /\ existsb is_close l = true
  /\ existsb failure_banner l = false
  /\ morelinks (site 0%nat) = 1%nat
  /\ (0 <= T -> Z.of_nat (List.length (compared l)) = T).
Proof.
  intros H Hs. apply run_cases in H.
  destruct H as [(_ & _ & ->)|(Hm & l' & -> & Hw)]; [discriminate Hs|].
  destruct (Z.le_gt_cases 0 T) as [HT|HT].
  - destruct (while_loop_inv _ _ _ _ _ _ _ _ _ _ Hw)
      as [(-> & Ha & Hn & Hf & Hc)|(Hs' & _)]; [lia| |contradiction].
    cbn. repeat split; auto. intros _. lia.
  - rewrite while_loop_done in Hw by lia. injection Hw as <- <-.
    cbn. repeat split; auto. lia.
Qed.

(** A run that ends with another status. *)
Lemma run_failure (now : Z) (fuel : nat) (l : list Event) (o : Outcome) :
  run now fuel = Some (l, o) -> exit_status o <> 0 ->
  existsb is_close l = false
  /\ (0 < T ->
      all_accepted (Valid now) (compared l) = false
      \/ Z.of_nat (List.length (compared l)) < T).
Proof.
  intros H Hs. apply run_cases in H.
  destruct H as [(_ & -> & ->)|(Hm & l' & -> & Hw)].
  - cbn. split; [reflexivity|]. intros HT. right. exact HT.
  - destruct (Z.le_gt_cases 0 T) as [HT|HT].
    + destruct (while_loop_inv _ _ _ _ _ _ _ _ _ _ Hw)
        as [(-> & _)|(_ & Hd & Hc)]; [lia|exfalso; apply Hs; reflexivity|].
      cbn. split; [exact Hc|]. intros _.
      destruct Hd as [Hd|Hd]; [left; exact Hd|right; lia].
    + rewrite while_loop_done in Hw by lia. injection Hw as <- <-.
      exfalso. apply Hs. reflexivity.
Qed.

End ClickWalkerRuns.

(** ** Monotone cursor *)

Lemma date_ge_trans (a b c : TimeValue) :
  date_ge a b = true -> date_ge b c = true -> date_ge a c = true.
Proof.
  destruct a, b, c; simpl; try discriminate.
  rewrite !Z.leb_le. lia.
Qed.

Lemma date_ge_refl_valid (a : TimeValue) : is_valid a = true -> date_ge a a = true.
Proof. destruct a; simpl; [intros _; apply Z.leb_refl|discriminate]. Qed.

Lemma newest_first_last (b : TimeValue) (l : list TimeValue) :
  is_valid b = true -> newest_first (b :: l) = true -> date_ge b (last l b) = true.
Proof.
  revert b. induction l as [|t l IH]; intros b Hb H.
  - apply date_ge_refl_valid. exact Hb.
  - change (date_ge b t && newest_first (t :: l) = true) in H.
    apply andb_prop in H. destruct H as [Hbt Hl].
    assert (Ht : is_valid t = true) by (destruct b, t; simpl in *; congruence).
    rewrite last_cons_bound.
    apply (date_ge_trans b t _ Hbt). apply IH; assumption.
Qed.

Lemma newest_first_tail (b : TimeValue) (l : list TimeValue) :
  newest_first (b :: l) = true -> newest_first l = true.
Proof.
  destruct l as [|t l]; [reflexivity|].
  change (date_ge b t && newest_first (t :: l) = true -> newest_first (t :: l) = true).
  intros H. apply andb_prop in H. apply H.
Qed.

(** C2, as the code has it.  As long as the timestamps are valid dates the
    cursor moves one way only.  A page check that returns leaves the count
    no smaller and the bound no newer than it found them.  In a run that
    ends with status 0 the compared timestamps, headed by the starting
    bound, are in newest-first order: each one is [>=] the next. *)
Theorem C2_cursor_monotone_on_valid_dates :
  (forall (p : Page) (idx T : Z) (b : TimeValue) (l : list Event)
          (idx' : Z) (b' : TimeValue),
      ClickWalker.validateArticlesOnPage p idx T b = (l, Ret (idx', b')) ->
      is_valid b = true -> forallb is_valid (compared l) = true ->
      idx <= idx' /\ idx' = idx + Z.of_nat (List.length (compared l))
      /\ b' = last (compared l) b /\ date_ge b b' = true
      /\ newest_first (b :: compared l) = true)
  /\
  (forall (site : Site) (rand : nat -> double) (T now : Z) (fuel : nat)
          (l : list Event) (o : Outcome),
      ClickWalker.sortHackerNewsArticles site rand T now fuel = Some (l, o) ->
      exit_status o = 0 -> forallb is_valid (compared l) = true ->
      newest_first (Valid now :: compared l) = true
      /\ newest_first (compared l) = true).
Proof.
  split.
  - intros p idx T b l idx' b' H Hb Hv.
    destruct (validate_spec p idx T b) as (lv & Hrun & _ & Hcmp & _).
    rewrite Hrun in H. clear Hrun.
    destruct (counts_match p) eqn:Hc; [|discriminate H].
    set (n := Z.to_nat (Z.min (Z.of_nat (List.length (athings p))) (T - idx + 1))) in *.
    destruct (all_accepted b (firstn n (ages p))) eqn:Hacc; [|discriminate H].
    injection H as <- <- <-.
    rewrite (evaluated_all _ _ Hacc), firstn_all in Hcmp. rewrite Hcmp in *.
    destruct (counts_match_lengths p Hc) as [Hla _].
    assert (Hlen : List.length (firstn n (ages p)) = n)
      by (rewrite length_firstn; subst n; lia).
    assert (Hnf : newest_first (b :: firstn n (ages p)) = true)
      by (apply accepted_valid_newest_first; assumption).
    rewrite Hlen. repeat split; try lia; [|exact Hnf].
    apply newest_first_last; assumption.
  - intros site rand T now fuel l o H Hs Hv.
    destruct (run_success _ _ _ _ _ _ _ H Hs) as (_ & Ha & _).
    assert (Hnf : newest_first (Valid now :: compared l) = true)
      by (apply accepted_valid_newest_first; auto).
    split; [exact Hnf|]. apply (newest_first_tail _ _ Hnf).
Qed.

(** Scenario A of the specification: [10:00, 09:59, 09:58] is accepted and
    is in newest-first order. *)
Lemma C2_scenario_A :
  ClickWalker.sortHackerNewsArticles
    (fun _ => listing_of [at_time 10 0; at_time 9 59; at_time 9 58])
    half 3 36060000 4%nat
  = Some (opening_events ++
          [EvWait (double_of_Z 600); EvClick; EvWait (double_of_Z 600);
           EvLog (MsgPageHeader 1 (Valid 36060000) 3%nat 3%nat 3%nat);
           EvEntry 1 (at_time 10 0) (js "1") (js "title");
           EvCompare (at_time 10 0) (Valid 36060000);
           EvEntry 2 (at_time 9 59) (js "1") (js "title");
           EvCompare (at_time 9 59) (at_time 10 0);
           EvEntry 3 (at_time 9 58) (js "1") (js "title");
           EvCompare (at_time 9 58) (at_time 9 59);
           EvLog MsgPageChecked; EvClose; EvLog MsgSuccess],
          ProcessExit 0)
  /\ newest_first [Valid 36060000; at_time 10 0; at_time 9 59; at_time 9 58] = true.
Proof.
  split; [reflexivity|].
  apply (proj2 C2_cursor_monotone_on_valid_dates
           (fun _ => listing_of [at_time 10 0; at_time 9 59; at_time 9 58])
           half 3 36060000 4%nat _ (ProcessExit 0) eq_refl eq_refl eq_refl).
Defined.

(** C2 as stated fails on an entry whose date is invalid: the run below
    ends with status 0 although its compared timestamps are not in
    newest-first order, the third being newer than the first. *)
Lemma C2_invalid_date_breaks_order :
  exists l,
    ClickWalker.sortHackerNewsArticles
      (fun _ => listing_of [Valid 5; InvalidDate; Valid 10]) half 3 100 4%nat
    = Some (l, ProcessExit 0)
    /\ exit_status (ProcessExit 0) = 0
    /\ compared l = [Valid 5; InvalidDate; Valid 10]
    /\ newest_first (compared l) = false
    /\ date_ge (Valid 5) (Valid 10) = false.
Proof. eexists. split; [reflexivity|]. repeat split; reflexivity. Qed.

(** ** How many entries of a page are evaluated *)

(** The final script: with [idx - 1] entries verified so far, a page whose
    counts agree has at most [min(entries, T - verified)] entries compared,
    exactly that many when the page check returns, and they are the first
    ones of the page. *)
Lemma click_walker_page_budget (p : Page) (idx T : Z) (b : TimeValue) :
  counts_match p = true -> idx <= T + 1 ->
  let m := Z.min (Z.of_nat (List.length (athings p))) (T - (idx - 1)) in
  exists l r,
    ClickWalker.validateArticlesOnPage p idx T b = (l, r)
    /\ Z.of_nat (List.length (compared l)) <= m
    /\ (forall c, r = Ret c ->
        Z.of_nat (List.length (compared l)) = m
        /\ compared l = firstn (Z.to_nat m) (ages p)
        /\ fst c = idx + m).
Proof.
  intros Hc Hidx m.
  destruct (validate_spec p idx T b) as (l & Hrun & _ & Hcmp & _).
  rewrite Hc in Hrun, Hcmp.
  replace (T - idx + 1) with (T - (idx - 1)) in Hrun, Hcmp by lia.
  fold m in Hrun, Hcmp.
  destruct (counts_match_lengths p Hc) as [Hla _].
  assert (Hlen : List.length (firstn (Z.to_nat m) (ages p)) = Z.to_nat m)
    by (rewrite length_firstn; subst m; lia).
  eexists. eexists. split; [exact Hrun|]. split.
  - rewrite Hcmp, length_firstn.
    pose proof (evaluated_le b (firstn (Z.to_nat m) (ages p))). subst m. lia.
  - intros c Hr.
    destruct (all_accepted b (firstn (Z.to_nat m) (ages p))) eqn:Hacc;
      [|discriminate Hr].
    injection Hr as <-. rewrite (evaluated_all _ _ Hacc), firstn_all in Hcmp.
    rewrite Hcmp, Hlen. cbn [fst]. subst m. repeat split; lia.
Qed.

(** C3.  The first draft of the script (lines 395 and 451) budgets one
    entry too few.  With 90 entries verified ([article_index = 91]), a
    target of 100 and a page of 30, it compares 9 entries where
    [min(30, 100 - 90) = 10]; the final script compares 10 on the same
    input.  Run from the start over pages of 30, the draft exits with
    status 0 after 99 comparisons. *)
Theorem C3_offset_walker_checks_one_entry_too_few :
  let p := listing_of (repeat (Valid 0) 30) in
  Z.min (Z.of_nat (List.length (athings p))) (100 - 90) = 10
  /\ (exists l,
        OffsetWalker.validateArticlesOnPage p 91 100 (Valid 0)
        = (l, Ret (100, Valid 0))
        /\ List.length (compared l) = 9%nat)
  /\ (exists l,
        ClickWalker.validateArticlesOnPage p 91 100 (Valid 0)
        = (l, Ret (101, Valid 0))
        /\ List.length (compared l) = 10%nat)
  /\ (exists l,
        OffsetWalker.sortHackerNewsArticles (fun _ => p) 100 0 4
        = Some (l, ProcessExit 0)
        /\ List.length (compared l) = 99%nat).
Proof.
  cbv zeta. split; [reflexivity|].
  split; [|split]; eexists; (split; [vm_compute; reflexivity|]);
    vm_compute; reflexivity.
Qed.

(** ** The count check *)

(** C4.  When the numbers of timestamps, ids and titles extracted from a
    page are not all equal, the page check stops before its loop: no
    timestamp is compared, and the run ends with a non-zero status.  (The
    script calls an undefined [exit]; the error this raises is what ends
    the run.) *)
Theorem C4_count_mismatch_stops_before_comparing
    (p : Page) (idx T : Z) (b : TimeValue) :
  ~ (List.length (ages p) = List.length (scores p)
     /\ List.length (ages p) = List.length (athings p)) ->
  ClickWalker.validateArticlesOnPage p idx T b
  = ([EvLog MsgCountMismatch], Halt (Uncaught ReferenceError))
  /\ exit_status (Uncaught ReferenceError) <> 0
  /\ compared [EvLog MsgCountMismatch] = []
  /\ (forall (site : Site) (rand : nat -> double) (fuel cur draws : nat),
        site (S cur) = p -> morelinks (site cur) = 1%nat ->
        navigable p = true -> idx <= T ->
        exists l o,
          ClickWalker.while_loop site rand T (S fuel) cur draws (idx, b)
          = Some (l, o)
          /\ exit_status o <> 0 /\ compared l = []
          /\ In (EvLog MsgCountMismatch) l).
Proof.
  intros Hne.
  assert (Hc : counts_match p = false).
  { unfold counts_match. apply andb_false_iff.
    destruct (List.length (ages p) =? List.length (athings p))%nat eqn:E1;
      [|left; reflexivity].
    destruct (List.length (ages p) =? List.length (scores p))%nat eqn:E2;
      [|right; reflexivity].
    apply Nat.eqb_eq in E1, E2. exfalso. apply Hne. split; assumption. }
  assert (Hv : ClickWalker.validateArticlesOnPage p idx T b
               = ([EvLog MsgCountMismatch], Halt (Uncaught ReferenceError))).
  { unfold ClickWalker.validateArticlesOnPage.
    rewrite check_counts_spec, Hc. reflexivity. }
  split; [exact Hv|]. split; [discriminate|]. split; [reflexivity|].
  intros site rand fuel cur draws Hp Hm Hnav Hle.
  apply Z.leb_le in Hle.
  cbn [ClickWalker.while_loop fst]. rewrite Hle, loop_body_spec, Hm, Hp.
  destruct (navigable_parts p Hnav) as [Hm1 Hsel].
  rewrite Hm1, Hsel, Hv. cbn [negb].
  eexists. eexists. split; [reflexivity|].
  split; [discriminate|]. split; [reflexivity|].
  cbn. auto.
Qed.

Lemma C4_scenario_C :
  ClickWalker.validateArticlesOnPage scenario_C_page 1 100 (at_time 10 1)
  = ([EvLog MsgCountMismatch], Halt (Uncaught ReferenceError)).
Proof.
  apply (C4_count_mismatch_stops_before_comparing
           scenario_C_page 1 100 (at_time 10 1)).
  cbn. intros [_ H]. discriminate H.
Defined.

(** ** Exit status *)

(** In a walk that ends with status 0, every page reached by a click showed
    one "More" link and the awaited elements, and its counts agreed. *)
Lemma while_loop_pages_ok (site : Site) (rand : nat -> double) (T : Z)
    (fuel cur draws : nat) (c : Cursor) (l : list Event) (o : Outcome) :
  ClickWalker.while_loop site rand T fuel cur draws c = Some (l, o) ->
  exit_status o = 0 ->
  forall j, (1 <= j <= clicks l)%nat ->
    navigable (site (cur + j)%nat) = true
    /\ counts_match (site (cur + j)%nat) = true.
Proof.
  revert cur draws c l. induction fuel as [|fuel IH]; intros cur draws c l H Hs;
    cbn [ClickWalker.while_loop] in H;
    destruct (fst c <=? T);
    try discriminate H;
    try (injection H as <- <-; cbn; intros j Hj; lia).
  destruct c as [idx b].
  destruct (ClickWalker.loop_body site rand T cur draws (idx, b))
    as [l1 [[idx' b']|o1]] eqn:Hbody.
  - destruct (loop_body_ret _ _ _ _ _ _ _ _ _ _ Hbody)
      as (Hnav & Hcm & _ & _ & _ & _ & _ & Hcl & _).
    apply after_some in H. destruct H as (l2 & Hrest & ->).
    intros j Hj. rewrite clicks_app, Hcl in Hj.
    destruct (Nat.eq_dec j 1) as [->|Hj1].
    + replace (cur + 1)%nat with (S cur) by lia. auto.
    + replace (cur + j)%nat with (S cur + (j - 1))%nat by lia.
      apply (IH _ _ _ _ Hrest Hs). lia.
  - injection H as <- <-.
    destruct (loop_body_halt _ _ _ _ _ _ _ _ _ Hbody) as (Hne & _).
    contradiction.
Qed.

(** For a positive target [T], a finished run has status 0 exactly
    when [T] entries were compared and every one passed the test of line
    160.  The
    status is not 0 whenever a failure banner was printed, whenever a page
    that was reached did not show exactly one "More" link, and whenever a
    page reached by a click had unequal counts. *)
Lemma exit_zero_iff_all_accepted
    (site : Site) (rand : nat -> double) (T now : Z) (fuel : nat)
    (l : list Event) (o : Outcome) :
  0 < T ->
  ClickWalker.sortHackerNewsArticles site rand T now fuel = Some (l, o) ->
  (exit_status o = 0 <->
   all_accepted (Valid now) (compared l) = true
   /\ Z.of_nat (List.length (compared l)) = T)
  /\ (exit_status o = 0 -> o = ProcessExit 0)
  /\ (existsb failure_banner l = true -> exit_status o <> 0)
  /\ ((exists j, (j <= clicks l)%nat /\ morelinks (site j) <> 1%nat) ->
      exit_status o <> 0)
  /\ ((exists j, (1 <= j <= clicks l)%nat /\ counts_match (site j) = false) ->
      exit_status o <> 0).
Proof.
  intros HT H.
  assert (Hpages : exit_status o = 0 ->
            forall j, (1 <= j <= clicks l)%nat ->
              navigable (site j) = true /\ counts_match (site j) = true).
  { intros Hs. destruct (run_cases _ _ _ _ _ _ _ H)
      as [(_ & _ & ->)|(_ & l' & -> & Hw)]; [discriminate Hs|].
    intros j Hj. apply (while_loop_pages_ok _ _ _ _ _ _ _ _ _ Hw Hs j).
    rewrite clicks_app in Hj. exact Hj. }
  split; [split|split; [|split; [|split]]].
  - intros Hs. destruct (run_success _ _ _ _ _ _ _ H Hs) as (_ & Ha & _ & _ & _ & Hn).
    split; [exact Ha|]. apply Hn. lia.
  - intros [Ha Hn]. destruct (Z.eq_dec (exit_status o) 0) as [Hs|Hs]; [exact Hs|].
    destruct (run_failure _ _ _ _ _ _ _ H Hs) as (_ & Hd).
    destruct (Hd HT) as [Hf|Hf]; [congruence|lia].
  - intros Hs. apply (run_success _ _ _ _ _ _ _ H Hs).
  - intros Hb Hs.
    destruct (run_success _ _ _ _ _ _ _ H Hs) as (_ & _ & _ & Hf & _).
    congruence.
  - intros (j & Hj & Hm) Hs. apply Hm.
    destruct (Nat.eq_dec j 0) as [->|Hj0].
    + apply (run_success _ _ _ _ _ _ _ H Hs).
    + destruct (Hpages Hs j) as [Hnav _]; [lia|].
      apply navigable_parts in Hnav. apply Nat.eqb_eq. apply Hnav.
  - intros (j & Hj & Hm) Hs.
    destruct (Hpages Hs j Hj) as [_ Hcm]. congruence.
Qed.

Lemma newest_first_accepted (b : TimeValue) (l : list TimeValue) :
  newest_first (b :: l) = true -> all_accepted b l = true.
Proof.
  revert b. induction l as [|t l IH]; intros b H; [reflexivity|].
  change (date_ge b t && newest_first (t :: l) = true) in H.
  apply andb_prop in H. destruct H as [Hge Hl].
  cbn [all_accepted]. rewrite (IH t Hl), andb_true_r.
  destruct b, t; simpl in *; try discriminate.
  apply negb_true_iff, Z.ltb_ge. apply Z.leb_le. exact Hge.
Qed.

(** C5, as the code has it.  For a positive target [T], a finished run
    whose compared timestamps are all valid dates has status 0 exactly
    when [T] entries were compared and, headed by the starting time, they
    are in newest-first order: each one is [>=] the next.  Whatever the
    dates, the status is not 0 whenever a failure banner was printed,
    whenever a page that was reached did not show exactly one "More" link,
    and whenever a page reached by a click had unequal counts. *)
Theorem C5_exit_zero_iff_in_order_on_valid_dates
    (site : Site) (rand : nat -> double) (T now : Z) (fuel : nat)
    (l : list Event) (o : Outcome) :
  0 < T ->
  ClickWalker.sortHackerNewsArticles site rand T now fuel = Some (l, o) ->
  (forallb is_valid (compared l) = true ->
   (exit_status o = 0 <->
    newest_first (Valid now :: compared l) = true
    /\ Z.of_nat (List.length (compared l)) = T))
  /\ (exit_status o = 0 -> o = ProcessExit 0)
  /\ (existsb failure_banner l = true -> exit_status o <> 0)
  /\ ((exists j, (j <= clicks l)%nat /\ morelinks (site j) <> 1%nat) ->
      exit_status o <> 0)
  /\ ((exists j, (1 <= j <= clicks l)%nat /\ counts_match (site j) = false) ->
      exit_status o <> 0).
Proof.
  intros HT H.
  destruct (exit_zero_iff_all_accepted site rand T now fuel l o HT H)
    as (Hiff & Hexit & Hbanner & Hmore & Hcounts).
  split; [|repeat split; assumption].
  intros Hvalid. split.
  - intros Hs. destruct (proj1 Hiff Hs) as [Ha Hn]. split; [|exact Hn].
    apply accepted_valid_newest_first; auto.
  - intros [Hnf Hn]. apply Hiff. split; [|exact Hn].
    apply newest_first_accepted. exact Hnf.
Qed.

(** Scenario A with target 3: status 0, three entries, newest first. *)
Lemma C5_scenario_A_exit_zero :
  exit_status (ProcessExit 0) = 0 <->
  newest_first [Valid 36060000; at_time 10 0; at_time 9 59; at_time 9 58] = true
  /\ Z.of_nat (List.length [at_time 10 0; at_time 9 59; at_time 9 58]) = 3.
Proof.
  apply (proj1 (C5_exit_zero_iff_in_order_on_valid_dates
                  (fun _ => listing_of [at_time 10 0; at_time 9 59; at_time 9 58])
                  half 3 36060000 4%nat
                  (opening_events ++
                   [EvWait (double_of_Z 600); EvClick; EvWait (double_of_Z 600);
                    EvLog (MsgPageHeader 1 (Valid 36060000) 3 3 3);
                    EvEntry 1 (at_time 10 0) (js "1") (js "title");
                    EvCompare (at_time 10 0) (Valid 36060000);
                    EvEntry 2 (at_time 9 59) (js "1") (js "title");
                    EvCompare (at_time 9 59) (at_time 10 0);
                    EvEntry 3 (at_time 9 58) (js "1") (js "title");
                    EvCompare (at_time 9 58) (at_time 9 59);
                    EvLog MsgPageChecked; EvClose; EvLog MsgSuccess])
                  (ProcessExit 0) eq_refl eq_refl)).
  reflexivity.
Defined.

(** C5 as stated fails twice.  With an invalid date among the entries the
    run ends with status 0 after three comparisons although the entries are
    not in order, the third being newer than the first.  And with a target
    of 0, where no entry is left to verify, the run still ends with a
    status other than 0 when the opening page shows no "More" link. *)
Lemma C5_status_zero_without_order :
  (exists l,
     ClickWalker.sortHackerNewsArticles
       (fun _ => listing_of [Valid 5; InvalidDate; Valid 10]) half 3 100 4
     = Some (l, ProcessExit 0)
     /\ exit_status (ProcessExit 0) = 0
     /\ compared l = [Valid 5; InvalidDate; Valid 10]
     /\ newest_first (compared l) = false
     /\ date_ge (Valid 5) (Valid 10) = false)
  /\ (exists l,
        ClickWalker.sortHackerNewsArticles
          (fun _ => mkPage 0 true true true true [] [] [] true) half 0 100 4
        = Some (l, Uncaught ExpectError)
        /\ compared l = []
        /\ exit_status (Uncaught ExpectError) <> 0).
Proof.
  split; eexists; (split; [vm_compute; reflexivity|]); repeat split.
  discriminate.
Qed.

(** ** Number of turns *)











(** ** Pacing delays *)

Lemma loop_body_delay_blind (site : Site) (rand1 rand2 : nat -> double) (T : Z)
    (cur d1 d2 : nat) (c : Cursor) :
  exists l1 l2 r,
    ClickWalker.loop_body site rand1 T cur d1 c = (l1, r)
    /\ ClickWalker.loop_body site rand2 T cur d2 c = (l2, r)
    /\ without_waits l1 = without_waits l2.
Proof.
  destruct c as [idx b]. rewrite !loop_body_spec.
  destruct (morelinks (site cur)) as [|[|m]].
  - eexists. eexists. eexists. repeat split; reflexivity.
  - destruct (negb (morelinks (site (S cur)) =? 1)%nat).
    + destruct (content_loads (site (S cur)));
        eexists; eexists; eexists; repeat split; reflexivity.
    + destruct (sel_age (site (S cur)) && sel_athing (site (S cur))
                && sel_score (site (S cur))).
      * destruct (ClickWalker.validateArticlesOnPage (site (S cur)) idx T b)
          as [l r].
        eexists. eexists. eexists. repeat split; reflexivity.
      * eexists. eexists. eexists. repeat split; reflexivity.
  - eexists. eexists. eexists. repeat split; reflexivity.
Qed.

Lemma while_loop_delay_blind (site : Site) (rand1 rand2 : nat -> double) (T : Z)
    (fuel cur d1 d2 : nat) (c : Cursor) :
  same_verdict (ClickWalker.while_loop site rand1 T fuel cur d1 c)
               (ClickWalker.while_loop site rand2 T fuel cur d2 c).
Proof.
  revert cur d1 d2 c. induction fuel as [|fuel IH]; intros cur d1 d2 c;
    cbn [ClickWalker.while_loop]; destruct (fst c <=? T);
    try (cbn; auto; fail).
  destruct (loop_body_delay_blind site rand1 rand2 T cur d1 d2 c)
    as (l1 & l2 & r & -> & -> & Hw).
  destruct r as [c'|o]; [|cbn; auto].
  specialize (IH (S cur) (S (S d1)) (S (S d2)) c').
  destruct (ClickWalker.while_loop site rand1 T fuel (S cur) (S (S d1)) c')
    as [[l1' o1]|];
    destruct (ClickWalker.while_loop site rand2 T fuel (S cur) (S (S d2)) c')
    as [[l2' o2]|]; cbn in IH |- *; try contradiction; auto.
  destruct IH as [-> Hw']. rewrite !without_waits_app, Hw, Hw'. auto.
Qed.

(** C7.  Over one snapshot of the site, two runs that draw different random
    numbers for their delays end the same way: both with the same outcome,
    and with the same events apart from the waits, or neither within the
    given number of turns. *)
Theorem C7_verdict_independent_of_delays
    (site : Site) (T now : Z) (fuel : nat) (rand1 rand2 : nat -> double) :
  match ClickWalker.sortHackerNewsArticles site rand1 T now fuel,
        ClickWalker.sortHackerNewsArticles site rand2 T now fuel with
  | Some (l1, o1), Some (l2, o2) =>
      o1 = o2 /\ exit_status o1 = exit_status o2
      /\ without_waits l1 = without_waits l2
  | None, None => True
  | _, _ => False
  end.
Proof.
  unfold ClickWalker.sortHackerNewsArticles.
  destruct (morelinks (site 0%nat) =? 1)%nat; cbn; [|auto].
  pose proof (while_loop_delay_blind site rand1 rand2 T fuel 0 0 0 (1, Valid now))
    as H.
  destruct (ClickWalker.while_loop site rand1 T fuel 0 0 (1, Valid now))
    as [[l1 o1]|];
    destruct (ClickWalker.while_loop site rand2 T fuel 0 0 (1, Valid now))
    as [[l2 o2]|]; cbn in H |- *; try contradiction; auto.
  destruct H as [-> Hw]. unfold without_waits in *. cbn. rewrite Hw. auto.
Qed.

(** ** Releasing the page *)

(** C8.  The failure exits do not close the page.  On an order violation,
    on a count mismatch and on a missing "More" link the run ends with a
    non-zero status and its trace holds no [page.close()]; only the
    successful run closes the page. *)
Theorem C8_failure_exits_leave_page_open :
  (exists l,
     ClickWalker.sortHackerNewsArticles
       (fun _ => listing_of [at_time 10 0; at_time 10 1]) half 100 36060000 4
     = Some (l, ProcessExit (-1))
     /\ In (EvLog MsgNotInOrder) l /\ existsb is_close l = false)
  /\ (exists l,
        ClickWalker.sortHackerNewsArticles
          (fun _ => scenario_C_page) half 100 36060000 4
        = Some (l, Uncaught ReferenceError)
        /\ In (EvLog MsgCountMismatch) l /\ existsb is_close l = false)
  /\ (exists l,
        ClickWalker.sortHackerNewsArticles site_without_more half 100 36060000 4
        = Some (l, ProcessExit (-1))
        /\ In (EvLog MsgNextPageFailed) l /\ existsb is_close l = false)
  /\ (exists l,
        ClickWalker.sortHackerNewsArticles
          (fun _ => listing_of [at_time 10 0; at_time 9 59; at_time 9 58])
          half 3 36060000 4
        = Some (l, ProcessExit 0)
        /\ existsb is_close l = true).
Proof.
  split; [|split; [|split]]; eexists;
    (split; [vm_compute; reflexivity|]); cbn; intuition.
Qed.

(** ** Pages without entries *)

Lemma validate_blank (p : Page) (idx T : Z) (b : TimeValue) :
  blank p ->
  ClickWalker.validateArticlesOnPage p idx T b
  = ([EvLog (MsgPageHeader idx b 0 0 0); EvLog MsgPageChecked], Ret (idx, b)).
Proof.
  intros (_ & Ha & Ht & Hs).
  unfold ClickWalker.validateArticlesOnPage, check_counts, page_header.
  rewrite Ha, Ht, Hs. cbn [List.length Nat.eqb negb orb fst snd].
  replace (Z.to_nat (Z.min (Z.of_nat 0) (T - idx + 1))) with O by lia.
  reflexivity.
Qed.

Lemma while_loop_blank_forever (site : Site) (rand : nat -> double) (T : Z)
    (fuel cur draws : nat) (idx : Z) (b : TimeValue) :
  idx <= T ->
  (forall k, morelinks (site k) = 1%nat) ->
  (forall k, (1 <= k)%nat -> blank (site k)) ->
  ClickWalker.while_loop site rand T fuel cur draws (idx, b) = None.
Proof.
  intros Hle Hm Hb. apply Z.leb_le in Hle.
  revert cur draws. induction fuel as [|fuel IH]; intros cur draws;
    cbn [ClickWalker.while_loop fst]; rewrite Hle; [reflexivity|].
  rewrite loop_body_spec, Hm.
  assert (Hbl : blank (site (S cur))) by (apply Hb; lia).
  destruct (navigable_parts _ (proj1 Hbl)) as [Hm1 Hsel].
  rewrite Hm1, Hsel, (validate_blank _ idx T b Hbl). cbn [negb].
  rewrite IH. reflexivity.
Qed.

(** C9, as the code has it.  A page whose three counts are zero, and which
    still shows one "More" link and the elements the script waits for,
    passes the count check, has no entry compared and leaves the cursor as
    it was.  When every page reached by a click is such a page and the
    target is at least 1, the main loop does not end: whatever the number
    of turns allowed, the run is still going. *)
Theorem C9_blank_pages_never_finish
    (site : Site) (rand : nat -> double) (T now : Z) :
  1 <= T ->
  morelinks (site 0%nat) = 1%nat ->
  (forall k, (1 <= k)%nat -> blank (site k)) ->
  (forall k idx b, (1 <= k)%nat ->
     counts_match (site k) = true
     /\ exists l,
          ClickWalker.validateArticlesOnPage (site k) idx T b = (l, Ret (idx, b))
          /\ compared l = [])
  /\ (forall fuel,
        ClickWalker.sortHackerNewsArticles site rand T now fuel = None).
Proof.
  intros HT Hm Hb. split.
  - intros k idx b Hk. pose proof (Hb k Hk) as Hbl. split.
    + destruct Hbl as (_ & Ha & Ht & Hs). unfold counts_match.
      rewrite Ha, Ht, Hs. reflexivity.
    + eexists. split; [apply validate_blank; exact Hbl|reflexivity].
  - intros fuel. unfold ClickWalker.sortHackerNewsArticles. rewrite Hm. cbn.
    rewrite (while_loop_blank_forever site rand T fuel 0 0 1 (Valid now));
      [reflexivity|lia| |exact Hb].
    intros [|k]; [exact Hm|].
    destruct (Hb (S k)) as [Hnav _]; [lia|].
    apply navigable_parts in Hnav. apply Nat.eqb_eq. apply Hnav.
Qed.

(** A site of blank pages: the walk is still going after fifty turns. *)
Lemma C9_blank_site_still_running :
  ClickWalker.sortHackerNewsArticles (fun _ => listing_of []) half 100 0 50 = None.
Proof.
  apply (proj2 (C9_blank_pages_never_finish (fun _ => listing_of []) half 100 0
                  ltac:(lia) eq_refl
                  (fun k _ => conj eq_refl (conj eq_refl (conj eq_refl eq_refl))))).
Defined.

(** C9 as stated fails twice.  Pages with zero counts on which the awaited
    elements never show end the run, through the timeout of
    [waitForSelector]; and a run can end with status 0 although one of its
    pages held no entry. *)
Lemma C9_empty_pages_can_end_the_run :
  (exists l,
     ClickWalker.sortHackerNewsArticles
       (fun _ => mkPage 1 true false false false [] [] [] true) half 100 0 1
     = Some (l, Uncaught TimeoutError)
     /\ compared l = [])
  /\ (exists l,
        ClickWalker.sortHackerNewsArticles site_blank_then_thirty half 30 0 2
        = Some (l, ProcessExit 0)
        /\ counts_match (site_blank_then_thirty 1%nat) = true
        /\ ages (site_blank_then_thirty 1%nat) = []
        /\ clicks l = 2%nat).
Proof.
  split; eexists; (split; [vm_compute; reflexivity|]); repeat split.
Qed.

(** ** Invalid dates *)

(** C10, as the code has it.  An entry whose date is invalid is never
    rejected, whatever the bound: it is accepted and the bound becomes the
    invalid date.  The entry evaluated next is then accepted whatever its
    timestamp, and that timestamp becomes the bound against which the
    entries after it are compared. *)
Theorem C10_invalid_date_is_accepted
    (p : Page) (k i : nat) (idx : Z) (bound : TimeValue)
    (title id_attr : JsString) :
  nth_error (athings p) i = Some title ->
  nth_error (scores p) i = Some id_attr ->
  nth_error (ages p) i = Some InvalidDate ->
  date_gt InvalidDate bound = false
  /\ check_articles p (S k) i (idx, bound)
     = (let (l, r) := check_articles p k (S i) (idx + 1, InvalidDate) in
        (EvEntry idx InvalidDate (substring_from 6 id_attr) title
           :: EvCompare InvalidDate bound :: l, r))
  /\ (forall (title' id_attr' : JsString) (t : TimeValue),
        nth_error (athings p) (S i) = Some title' ->
        nth_error (scores p) (S i) = Some id_attr' ->
        nth_error (ages p) (S i) = Some t ->
        date_gt t InvalidDate = false
        /\ check_articles p (S (S k)) i (idx, bound)
           = (let (l, r) := check_articles p k (S (S i)) (idx + 1 + 1, t) in
              (EvEntry idx InvalidDate (substring_from 6 id_attr) title
                 :: EvCompare InvalidDate bound
                 :: EvEntry (idx + 1) t (substring_from 6 id_attr') title'
                 :: EvCompare t InvalidDate :: l, r))).
Proof.
  intros Ha Hs Hg. split; [reflexivity|]. split.
  - rewrite (check_articles_step p k i idx bound title id_attr InvalidDate Ha Hs Hg).
    reflexivity.
  - intros title' id_attr' t Ha' Hs' Hg'. split; [apply date_gt_invalid_r|].
    rewrite (check_articles_step p (S k) i idx bound title id_attr InvalidDate
               Ha Hs Hg).
    cbn [date_gt].
    rewrite (check_articles_step p k (S i) (idx + 1) InvalidDate title' id_attr' t
               Ha' Hs' Hg').
    rewrite date_gt_invalid_r.
    destruct (check_articles p k (S (S i)) (idx + 1 + 1, t)) as [l r].
    reflexivity.
Qed.

(** An invalid date between two valid ones lets a newer entry through. *)
Lemma C10_invalid_then_newer :
  check_articles (listing_of [Valid 5; InvalidDate; Valid 10]) 2 1 (2, Valid 5)
  = ([EvEntry 2 InvalidDate (js "1") (js "title"); EvCompare InvalidDate (Valid 5);
      EvEntry 3 (Valid 10) (js "1") (js "title"); EvCompare (Valid 10) InvalidDate],
     Ret (4, Valid 10)).
Proof.
  apply (proj2 (proj2 (C10_invalid_date_is_accepted
                         (listing_of [Valid 5; InvalidDate; Valid 10]) 0 1 2
                         (Valid 5) (js "title") (js "score_1") eq_refl eq_refl eq_refl))
           (js "title") (js "score_1") (Valid 10) eq_refl eq_refl eq_refl).
Defined.

(** C10 as stated fails in its last part: after an invalid date has been
    accepted, a later entry is still rejected when it is newer than the
    valid entry before it. *)
Lemma C10_later_entry_still_rejected :
  exists l,
    ClickWalker.sortHackerNewsArticles
      (fun _ => listing_of [InvalidDate; Valid 5; Valid 10]) half 3 100 4
    = Some (l, ProcessExit (-1))
    /\ compared l = [InvalidDate; Valid 5; Valid 10]
    /\ In (EvCompare (Valid 10) (Valid 5)) l
    /\ In (EvLog MsgNotInOrder) l
    /\ exit_status (ProcessExit (-1)) <> 0.
Proof.
  eexists. split; [vm_compute; reflexivity|].
  split; [reflexivity|]. split; [cbn; intuition|]. split; [cbn; intuition|].
  vm_compute. discriminate.
Qed.

(** * Further properties of the script *)

(** ** Delays *)

Lemma digits2_pos_bounds (p : positive) :
  2 ^ (Z.pos (digits2_pos p) - 1) <= Z.pos p < 2 ^ Z.pos (digits2_pos p).
Proof.
  induction p as [p IH|p IH|]; cbn [digits2_pos]; [| |cbn; lia];
    rewrite Pos2Z.inj_succ;
    replace (Z.succ (Z.pos (digits2_pos p)) - 1)
      with (Z.succ (Z.pos (digits2_pos p) - 1)) by lia;
    rewrite !Z.pow_succ_r by lia; lia.
Qed.

Lemma Zdigits2_le (x k : Z) : 0 <= k -> 0 <= x -> x < 2 ^ k -> Zdigits2 x <= k.
Proof.
  intros Hk Hx Hlt. destruct x as [|p|p]; [cbn; lia| |lia].
  cbn [Zdigits2]. pose proof (digits2_pos_bounds p) as [Hlo _].
  assert (H : 2 ^ (Z.pos (digits2_pos p) - 1) < 2 ^ k) by lia.
  apply Z.pow_lt_mono_r_iff in H; lia.
Qed.

Lemma iter_pos_invariant {A} (f : A -> A) (I : Z -> A -> Prop) :
  (forall k x, 0 <= k -> I k x -> I (k + 1) (f x)) ->
  forall n k x, 0 <= k -> I k x -> I (k + Z.pos n) (iter_pos f n x).
Proof.
  intros Hstep. induction n as [n IH|n IH|]; intros k x Hk Hx; cbn [iter_pos].
  - replace (k + Z.pos n~1) with (k + 1 + Z.pos n + Z.pos n) by lia.
    apply IH; [lia|]. apply IH; [lia|]. apply Hstep; assumption.
  - replace (k + Z.pos n~0) with (k + Z.pos n + Z.pos n) by lia.
    apply IH; [lia|]. apply IH; assumption.
  - apply Hstep; assumption.
Qed.

Lemma shr_1_step (P k : Z) (x : shr_record) :
  0 <= k ->
  0 <= shr_m x /\ 2 ^ k * (2 * shr_m x + Z.b2z (shr_r x)) <= 2 * P ->
  0 <= shr_m (shr_1 x)
  /\ 2 ^ (k + 1) * (2 * shr_m (shr_1 x) + Z.b2z (shr_r (shr_1 x))) <= 2 * P.
Proof.
  intros Hk [Hm H]. rewrite Z.pow_add_r, Z.pow_1_r by lia.
  pose proof (Z.pow_pos_nonneg 2 k ltac:(lia) Hk) as Hpos.
  destruct x as [m r s]. cbn [shr_m shr_r] in *.
  assert (Hr : 0 <= Z.b2z r <= 1) by (destruct r; cbn; lia).
  destruct m as [|[p|p|]|p]; cbn [shr_1 shr_m shr_r Z.b2z]; try lia; nia.
Qed.

Lemma round_nearest_even_bounds (x : shr_record) :
  shr_m x <= round_nearest_even (shr_m x) (loc_of_shr_record x)
             <= shr_m x + Z.b2z (shr_r x).
Proof.
  destruct x as [m [|] [|]]; cbn [shr_m shr_r loc_of_shr_record
                                  round_nearest_even Z.b2z]; try lia.
  destruct (Z.even m); lia.
Qed.

(** The shift that brings [m * 2^e] to the exponent of a double, from an
    exact start: the exponent grows by [n], and the mantissa left, with
    its rounding bit, is not above [m / 2^n]. *)
Lemma shr_fexp_exact (m e : Z) :
  0 <= m ->
  exists mrs n,
    shr_fexp 53 1024 m e loc_Exact = (mrs, e + n)
    /\ n = Z.max 0 (fexp 53 1024 (Zdigits2 m + e) - e)
    /\ 0 <= shr_m mrs
    /\ 2 ^ n * (2 * shr_m mrs + Z.b2z (shr_r mrs)) <= 2 * m.
Proof.
  intros Hm. unfold shr_fexp, shr. cbn [shr_record_of_loc].
  destruct (fexp 53 1024 (Zdigits2 m + e) - e) as [|p|p] eqn:En.
  - eexists. exists 0. rewrite Z.add_0_r. split; [reflexivity|].
    cbn [shr_m shr_r Z.b2z]. change (2 ^ 0) with 1. lia.
  - eexists. exists (Z.pos p). split; [reflexivity|]. split; [lia|].
    apply (iter_pos_invariant shr_1
             (fun k x => 0 <= shr_m x
                         /\ 2 ^ k * (2 * shr_m x + Z.b2z (shr_r x)) <= 2 * m)
             (fun k x Hk Hx => shr_1_step m k x Hk Hx) p 0
             {| shr_m := m; shr_r := false; shr_s := false |});
      [lia|]. cbn [shr_m shr_r Z.b2z]. lia.
  - eexists. exists 0. rewrite Z.add_0_r. split; [reflexivity|].
    cbn [shr_m shr_r Z.b2z]. change (2 ^ 0) with 1. lia.
Qed.

(** The product of two positive mantissas, rounded to a double: when the
    exact product [P * 2^E] has its leading bit below [2^10] and [E] is
    within reach, the result is zero or a finite double of negative
    exponent that exceeds the exact product by half a unit of its last
    place at most. *)
Lemma binary_round_aux_bound (P : positive) (E : Z) :
  Z.pos (digits2_pos P) <= 106 ->
  Z.pos (digits2_pos P) + E <= 10 ->
  -1127 <= E <= -43 ->
  binary_round_aux 53 1024 false (Z.pos P) E loc_Exact = S754_zero false
  \/ exists m3 e3,
       binary_round_aux 53 1024 false (Z.pos P) E loc_Exact
       = S754_finite false m3 e3
       /\ E <= e3 < 0
       /\ 2 * (Z.pos m3 * 2 ^ (e3 - E)) <= 2 * Z.pos P + 2 ^ 53.
Proof.
  intros Hd HdE HE. unfold binary_round_aux.
  destruct (shr_fexp_exact (Z.pos P) E ltac:(lia))
    as (mrs1 & n1 & -> & Hn1 & Hm1 & Hb1).
  cbn [Zdigits2] in Hn1. unfold fexp, emin in Hn1.
  set (d := Z.pos (digits2_pos P)) in *.
  assert (Hn1' : 0 <= n1 <= 53) by lia.
  assert (He1 : -1074 <= E + n1 <= -43) by lia.
  pose proof (round_nearest_even_bounds mrs1) as Hr.
  set (m2 := round_nearest_even (shr_m mrs1) (loc_of_shr_record mrs1)) in *.
  assert (Hrb : 0 <= Z.b2z (shr_r mrs1) <= 1)
    by (destruct (shr_r mrs1); cbn; lia).
  pose proof (Z.pow_pos_nonneg 2 n1 ltac:(lia) ltac:(lia)) as Hp1.
  (* the mantissa after the first shift has at most 53 bits *)
  assert (Hm1lt : shr_m mrs1 < 2 ^ 53).
  { destruct (Z.lt_ge_cases (shr_m mrs1) (2 ^ 53)) as [|Hge]; [assumption|].
    exfalso. pose proof (digits2_pos_bounds P) as [_ Hup]. fold d in Hup.
    assert (Hdn : d <= 53 + n1) by lia.
    assert (2 ^ d <= 2 ^ (53 + n1)) by (apply Z.pow_le_mono_r; lia).
    rewrite Z.pow_add_r in * by lia. nia. }
  destruct (shr_fexp_exact m2 (E + n1) ltac:(lia))
    as (mrs2 & n2 & -> & Hn2 & Hm3 & Hb2).
  assert (Hd2 : Zdigits2 m2 <= 54)
    by (apply Zdigits2_le; [lia|lia|change (2 ^ 54) with (2 * 2 ^ 53); lia]).
  unfold fexp, emin in Hn2.
  assert (Hn2' : 0 <= n2 <= 1) by lia.
  assert (Hrb2 : 0 <= Z.b2z (shr_r mrs2) <= 1)
    by (destruct (shr_r mrs2); cbn; lia).
  pose proof (Z.pow_pos_nonneg 2 n2 ltac:(lia) ltac:(lia)) as Hp2.
  destruct (shr_m mrs2) as [|m3|m3] eqn:Em3; [left; reflexivity| |lia].
  right. exists m3, (E + n1 + n2).
  replace (E + n1 + n2 <=? 1024 - 53) with true
    by (symmetry; apply Z.leb_le; lia).
  split; [reflexivity|]. split; [lia|].
  replace (E + n1 + n2 - E) with (n2 + n1) by lia.
  rewrite Z.pow_add_r by lia.
  assert (H53 : 2 ^ n1 <= 2 ^ 53) by (apply Z.pow_le_mono_r; lia).
  nia.
Qed.

Lemma double_of_800 : double_of_Z 800 = S754_finite false 7036874417766400 (-43).
Proof. reflexivity. Qed.

Lemma add_200_small (q : Z) :
  0 <= q < 800 ->
  double_add (double_of_Z 200) (double_of_Z q) = double_of_Z (200 + q).
Proof.
  intros Hq.
  assert (Htable :
    map (fun n => double_add (double_of_Z 200) (double_of_Z (Z.of_nat n)))
        (seq 0 800)
    = map (fun n => double_of_Z (200 + Z.of_nat n)) (seq 0 800))
    by (vm_compute; reflexivity).
  pose proof (proj1 map_ext_in_iff Htable (Z.to_nat q)) as H.
  cbv beta in H.
  rewrite Z2Nat.id in H by lia. apply H. apply in_seq. lia.
Qed.

Lemma script_delay_is_whole (r : double) :
  unit_double r = true ->
  exists k,
    0 <= k < 800
    /\ random_delay (double_of_Z 200) (double_of_Z 800) r = double_of_Z (200 + k).
Proof.
  destruct r as [[|]| | |[|] m e]; try discriminate.
  - intros _. exists 0. split; [lia|reflexivity].
  - cbn [unit_double]. intros H.
    apply andb_prop in H. destruct H as [H Hm].
    apply andb_prop in H. destruct H as [Hb He].
    apply Z.ltb_lt in Hm, He.
    unfold bounded, canonical_mantissa in Hb.
    apply andb_prop in Hb. destruct Hb as [Hc _].
    apply Z.eqb_eq in Hc. unfold fexp, emin in Hc.
    pose proof (digits2_pos_bounds m) as [Hlo Hup].
    set (dm := Z.pos (digits2_pos m)) in *.
    assert (Hdm : 1 <= dm) by (subst dm; lia).
    assert (Hdm53 : dm <= 53) by lia.
    assert (Hemin : -1074 <= e) by lia.
    assert (Hdme : dm + e <= 0).
    { assert (H : 2 ^ (dm - 1) < 2 ^ (- e)) by lia.
      apply Z.pow_lt_mono_r_iff in H; lia. }
    unfold random_delay, double_mul. rewrite double_of_800.
    cbn [SFmul xorb].
    assert (HP : Z.pos (m * 7036874417766400) < 2 ^ (dm + 53)).
    { rewrite Pos2Z.inj_mul, Z.pow_add_r by lia.
      change (2 ^ 53) with 9007199254740992. nia. }
    assert (HdP : Z.pos (digits2_pos (m * 7036874417766400)) <= dm + 53)
      by (apply (Zdigits2_le (Z.pos (m * 7036874417766400))); lia).
    destruct (binary_round_aux_bound (m * 7036874417766400) (e + -43))
      as [->|(m3 & e3 & -> & He3 & Hval)]; try lia.
    + exists 0. split; [lia|reflexivity].
    + cbn [double_floor]. replace (e3 <? 0) with true
        by (symmetry; apply Z.ltb_lt; lia).
      cbn [cond_Zopp].
      change (binary_normalize 53 1024 (Z.pos m3 / 2 ^ (- e3)) 0 false)
        with (double_of_Z (Z.pos m3 / 2 ^ (- e3))).
      set (q := Z.pos m3 / 2 ^ (- e3)).
      assert (Hq : 0 <= q < 800).
      { pose proof (Z.pow_pos_nonneg 2 (- e3) ltac:(lia) ltac:(lia)) as HC.
        split; [apply Z.div_pos; lia|].
        apply Z.div_lt_upper_bound; [exact HC|].
        pose proof (Z.pow_pos_nonneg 2 (e3 - (e + -43)) ltac:(lia) ltac:(lia))
          as HB.
        pose proof (Z.pow_pos_nonneg 2 (- e) ltac:(lia) ltac:(lia)) as HA.
        assert (E1 : 2 ^ (- e3) * 2 ^ (e3 - (e + -43)) = 2 ^ 43 * 2 ^ (- e)).
        { rewrite <- !Z.pow_add_r by lia. f_equal. lia. }
        rewrite Pos2Z.inj_mul in Hval.
        change (2 ^ 53) with 9007199254740992 in Hval.
        change (2 ^ 43) with 8796093022208 in E1.
        change (Z.pos 7036874417766400) with 7036874417766400 in Hval.
        nia. }
      exists q. split; [exact Hq|]. apply add_200_small. exact Hq.
Qed.

(** X1.  [random_delay(200, 800)], the one call the script makes, gives a
    whole number of milliseconds from 200 to 999.  For every double [r]
    that [Math.random()] may return, at least 0 and less than 1, the
    product [r * 800] and the sum are those of doubles, and the result is
    the double [200 + k] for an integer [k] with [0 <= k < 800]. *)
Theorem X1_script_delay_is_whole_and_within_range (r : double) :
  unit_double r = true ->
  exists k,
    0 <= k < 800
    /\ random_delay (double_of_Z 200) (double_of_Z 800) r = double_of_Z (200 + k).
Proof. exact (script_delay_is_whole r). Qed.

(** A value of [Math.random()] whose product with 800 is rounded up to a
    whole number: the delay is 801, one more than exact arithmetic
    gives. *)
Lemma X1_delay_with_rounded_product :
  random_delay (double_of_Z 200) (double_of_Z 800) rounding_sample
  = double_of_Z 801
  /\ exists k,
       0 <= k < 800
       /\ random_delay (double_of_Z 200) (double_of_Z 800) rounding_sample
          = double_of_Z (200 + k).
Proof.
  split; [reflexivity|].
  apply (X1_script_delay_is_whole_and_within_range rounding_sample).
  reflexivity.
Defined.

Lemma waits_app (l1 l2 : list Event) : waits (l1 ++ l2) = waits l1 ++ waits l2.
Proof.
  induction l1 as [|e l1 IH]; [reflexivity|].
  destruct e; simpl; rewrite ?IH; reflexivity.
Qed.

Lemma page_events_no_wait (l : list Event) :
  forallb page_event l = true -> waits l = [].
Proof.
  induction l as [|e l IH]; [reflexivity|]. simpl. intros H.
  apply andb_prop in H. destruct H as [He Hl].
  destruct e; try discriminate He; simpl; auto.
Qed.

Lemma loop_body_waits (site : Site) (rand : nat -> double) (T : Z)
    (cur draws : nat) (c : Cursor) (l : list Event) (r : Res Cursor) :
  ClickWalker.loop_body site rand T cur draws c = (l, r) ->
  forall d, In d (waits l) ->
    d = random_delay (double_of_Z 200) (double_of_Z 800) (rand draws)
    \/ d = random_delay (double_of_Z 200) (double_of_Z 800) (rand (S draws)).
Proof.
  destruct c as [idx b]. rewrite loop_body_spec.
  destruct (morelinks (site cur)) as [|[|m]].
  - intros H. injection H as <- _. cbn. intuition.
  - destruct (negb (morelinks (site (S cur)) =? 1)%nat).
    + destruct (content_loads (site (S cur)));
        intros H; injection H as <- _; cbn; intuition.
    + destruct (sel_age (site (S cur)) && sel_athing (site (S cur))
                && sel_score (site (S cur))).
      * destruct (validate_spec (site (S cur)) idx T b) as (lv & Hv & Hpe & _).
        rewrite Hv. intros H. injection H as <- _.
        cbn [waits]. rewrite (page_events_no_wait lv Hpe). cbn. intuition.
      * intros H. injection H as <- _. cbn. intuition.
  - intros H. injection H as <- _. cbn. intuition.
Qed.

Lemma while_loop_waits (site : Site) (rand : nat -> double) (T : Z)
    (fuel cur draws : nat) (c : Cursor) (l : list Event) (o : Outcome) :
  ClickWalker.while_loop site rand T fuel cur draws c = Some (l, o) ->
  forall d, In d (waits l) ->
    exists n, d = random_delay (double_of_Z 200) (double_of_Z 800) (rand n).
Proof.
  revert cur draws c l. induction fuel as [|fuel IH]; intros cur draws c l H;
    cbn [ClickWalker.while_loop] in H; destruct (fst c <=? T);
    try discriminate H;
    try (injection H as <- <-; cbn; intros d []).
  destruct (ClickWalker.loop_body site rand T cur draws c)
    as [l1 [c'|o1]] eqn:Hbody.
  - apply after_some in H. destruct H as (l2 & Hrest & ->).
    intros d Hin. rewrite waits_app in Hin. apply in_app_or in Hin.
    destruct Hin as [Hin|Hin].
    + destruct (loop_body_waits _ _ _ _ _ _ _ _ Hbody d Hin); eauto.
    + apply (IH _ _ _ _ Hrest d Hin).
  - injection H as <- <-. intros d Hin.
    destruct (loop_body_waits _ _ _ _ _ _ _ _ Hbody d Hin); eauto.
Qed.

(** X2.  Every delay that a finished run of the final script waits is a
    whole number of milliseconds, at least 200 and less than 1000, as long
    as [Math.random()] returns doubles that are at least 0 and less than
    1. *)
Theorem X2_every_wait_between_200_and_1000
    (site : Site) (rand : nat -> double) (T now : Z) (fuel : nat)
    (l : list Event) (o : Outcome) :
  (forall n, unit_double (rand n) = true) ->
  ClickWalker.sortHackerNewsArticles site rand T now fuel = Some (l, o) ->
  forall d, In d (waits l) ->
    exists ms, 200 <= ms < 1000 /\ d = double_of_Z ms.
Proof.
  intros Hrand H d Hin.
  assert (Hex : exists n,
            d = random_delay (double_of_Z 200) (double_of_Z 800) (rand n)).
  { destruct (run_cases _ _ _ _ _ _ _ H) as [(_ & -> & _)|(_ & l' & -> & Hw)].
    - destruct Hin.
    - rewrite waits_app in Hin. cbn [opening_events waits app] in Hin.
      apply (while_loop_waits _ _ _ _ _ _ _ _ _ Hw d Hin). }
  destruct Hex as (n & ->).
  destruct (script_delay_is_whole (rand n) (Hrand n)) as (k & Hk & ->).
  exists (200 + k). split; [lia|reflexivity].
Qed.

(** The waits of Scenario A, drawn with [Math.random() = 1/2], are of 600
    milliseconds. *)
Lemma X2_waits_of_scenario_A :
  waits [EvWait (double_of_Z 600); EvClick; EvWait (double_of_Z 600)]
  = [double_of_Z 600; double_of_Z 600]
  /\ exists ms, 200 <= ms < 1000 /\ double_of_Z 600 = double_of_Z ms.
Proof.
  split; [reflexivity|].
  refine (X2_every_wait_between_200_and_1000
            (fun _ => listing_of [at_time 10 0; at_time 9 59; at_time 9 58])
            half 3 36060000 4%nat _ (ProcessExit 0) _ eq_refl
            (double_of_Z 600) _).
  - intros n. reflexivity.
  - left. reflexivity.
Defined.

(** ** The id printed for an entry *)

(** X3.  The id printed for an evaluated entry is its [id] attribute
    without its first six code units: for an attribute made of a prefix of
    six units, such as ["score_"], and a rest, the entry line carries the
    rest; for an attribute of six units or fewer it carries the empty
    string. *)
Theorem X3_entry_line_carries_id_without_prefix
    (p : Page) (k i : nat) (idx : Z) (b ts : TimeValue)
    (title id_attr : JsString) :
  nth_error (athings p) i = Some title ->
  nth_error (scores p) i = Some id_attr ->
  nth_error (ages p) i = Some ts ->
  (forall prefix rest,
      List.length prefix = 6%nat -> id_attr = prefix ++ rest ->
      exists l r,
        check_articles p (S k) i (idx, b) = (EvEntry idx ts rest title :: l, r))
  /\ ((List.length id_attr <= 6)%nat ->
      exists l r,
        check_articles p (S k) i (idx, b) = (EvEntry idx ts [] title :: l, r)).
Proof.
  intros Ha Hs Hg.
  assert (Hline : exists l r,
            check_articles p (S k) i (idx, b)
            = (EvEntry idx ts (substring_from 6 id_attr) title :: l, r)).
  { rewrite (check_articles_step p k i idx b title id_attr ts Ha Hs Hg).
    destruct (date_gt ts b); [eauto|].
    destruct (check_articles p k (S i) (idx + 1, ts)) as [l r]. eauto. }
  split.
  - intros prefix rest Hlen ->. unfold substring_from in Hline.
    rewrite <- Hlen, skipn_app, skipn_all, Nat.sub_diag in Hline.
    exact Hline.
  - intros Hlen. unfold substring_from in Hline.
    rewrite skipn_all2 in Hline by exact Hlen. exact Hline.
Qed.

(** The attribute ["score_1"] is printed as ["1"]. *)
Lemma X3_score_1_is_printed_as_1 :
  exists l r,
    check_articles (listing_of [at_time 10 0]) 1 0 (1, at_time 10 1)
    = (EvEntry 1 (at_time 10 0) (js "1") (js "title") :: l, r).
Proof.
  apply (proj1 (X3_entry_line_carries_id_without_prefix
                  (listing_of [at_time 10 0]) 0 0 1 (at_time 10 1) (at_time 10 0)
                  (js "title") (js "score_1") eq_refl eq_refl eq_refl)
           (js "score_") (js "1")); reflexivity.
Defined.

(** ** What the walk reads, and how long it runs *)

Lemma while_loop_site_ext (site1 site2 : Site) (rand : nat -> double) (T : Z)
    (fuel cur draws : nat) (c : Cursor) :
  morelinks (site1 cur) = morelinks (site2 cur) ->
  (forall k, (cur < k)%nat -> site1 k = site2 k) ->
  ClickWalker.while_loop site1 rand T fuel cur draws c
  = ClickWalker.while_loop site2 rand T fuel cur draws c.
Proof.
  revert cur draws c. induction fuel as [|fuel IH]; intros cur draws c Hm Hext;
    cbn [ClickWalker.while_loop]; [reflexivity|].
  destruct (fst c <=? T); [|reflexivity].
  assert (Hbody : ClickWalker.loop_body site1 rand T cur draws c
                  = ClickWalker.loop_body site2 rand T cur draws c).
  { destruct c as [idx b]. rewrite !loop_body_spec.
    rewrite Hm, (Hext (S cur)) by lia. reflexivity. }
  rewrite Hbody.
  destruct (ClickWalker.loop_body site2 rand T cur draws c) as [l [c'|o]];
    [|reflexivity].
  rewrite (IH (S cur) (S (S draws)) c'); [reflexivity| |].
  - rewrite (Hext (S cur)) by lia. reflexivity.
  - intros k Hk. apply Hext. lia.
Qed.

(** X4.  The final script never reads the entries of the listing it opens
    first.  It clicks "More" before its first page check, so two sites that
    show the same number of "More" links on the opening page and the same
    listings after it give the same run, whatever entries the opening page
    holds. *)
Theorem X4_opening_listing_is_never_checked
    (site1 site2 : Site) (rand : nat -> double) (T now : Z) (fuel : nat) :
  morelinks (site1 0%nat) = morelinks (site2 0%nat) ->
  (forall k, (1 <= k)%nat -> site1 k = site2 k) ->
  ClickWalker.sortHackerNewsArticles site1 rand T now fuel
  = ClickWalker.sortHackerNewsArticles site2 rand T now fuel.
Proof.
  intros Hm Hext. unfold ClickWalker.sortHackerNewsArticles.
  rewrite Hm, (while_loop_site_ext site1 site2 rand T fuel 0 0 _ Hm);
    [reflexivity|].
  intros k Hk. apply Hext. lia.
Qed.

(** An opening listing that is out of order and holds an invalid date goes
    unnoticed. *)
Lemma X4_out_of_order_opening_listing :
  ClickWalker.sortHackerNewsArticles site_first_out_of_order half 2 39600000 4
  = ClickWalker.sortHackerNewsArticles site_first_in_order half 2 39600000 4.
Proof.
  apply (X4_opening_listing_is_never_checked
           site_first_out_of_order site_first_in_order half 2 39600000 4).
  - reflexivity.
  - intros [|k] Hk; [inversion Hk|reflexivity].
Defined.

Lemma while_loop_ends (site : Site) (rand : nat -> double) (T : Z) :
  (forall k, (1 <= k)%nat -> athings (site k) <> []) ->
  forall (fuel cur draws : nat) (idx : Z) (b : TimeValue),
    (Z.to_nat (T + 1 - idx) <= fuel)%nat ->
    exists l o,
      ClickWalker.while_loop site rand T fuel cur draws (idx, b) = Some (l, o).
Proof.
  intros Hne. induction fuel as [|fuel IH]; intros cur draws idx b Hfuel.
  - rewrite while_loop_done by lia. eauto.
  - destruct (Z.le_gt_cases idx T) as [Hle|Hgt];
      [|rewrite while_loop_done by lia; eauto].
    cbn [ClickWalker.while_loop fst].
    rewrite (proj2 (Z.leb_le idx T) Hle).
    destruct (ClickWalker.loop_body site rand T cur draws (idx, b))
      as [l1 [[idx' b']|o1]] eqn:Hbody; [|eauto].
    destruct (loop_body_ret _ _ _ _ _ _ _ _ _ _ Hbody)
      as (_ & _ & _ & _ & _ & Hidx' & _).
    assert (Hlen : (1 <= List.length (athings (site (S cur))))%nat).
    { specialize (Hne (S cur) ltac:(lia)).
      destruct (athings (site (S cur))); [contradiction|simpl; lia]. }
    destruct (IH (S cur) (S (S draws)) idx' b') as (l2 & o & Hrest); [lia|].
    rewrite Hrest. cbn. eauto.
Qed.

(** X5.  The walk ends when every listing after the opening one holds at
    least one title: the run of the final script is over, with one outcome
    or another, within [T] turns of its loop. *)
Theorem X5_walk_ends_within_target_turns
    (site : Site) (rand : nat -> double) (T now : Z) (fuel : nat) :
  (forall k, (1 <= k)%nat -> athings (site k) <> []) ->
  (Z.to_nat T <= fuel)%nat ->
  exists l o,
    ClickWalker.sortHackerNewsArticles site rand T now fuel = Some (l, o).
Proof.
  intros Hne Hfuel. unfold ClickWalker.sortHackerNewsArticles.
  destruct (morelinks (site 0%nat) =? 1)%nat; cbn; [|eauto].
  destruct (while_loop_ends site rand T Hne fuel 0 0 1 (Valid now))
    as (l & o & ->); [lia|].
  cbn. eauto.
Qed.

(** One entry per page: a target of three is over within three turns. *)
Lemma X5_one_entry_per_page :
  exists l o,
    ClickWalker.sortHackerNewsArticles (fun _ => listing_of [Valid 0]) half 3 0 3
    = Some (l, o).
Proof.
  apply (X5_walk_ends_within_target_turns (fun _ => listing_of [Valid 0]) half 3 0 3).
  - intros k _. discriminate.
  - apply Nat.le_refl.
Defined.

Lemma loop_body_compared_le (site : Site) (rand : nat -> double) (T : Z)
    (cur draws : nat) (idx : Z) (b : TimeValue)
    (l : list Event) (r : Res Cursor) :
  ClickWalker.loop_body site rand T cur draws (idx, b) = (l, r) -> idx <= T ->
  Z.of_nat (List.length (compared l)) <= T - idx + 1.
Proof.
  intros H Hle. rewrite loop_body_spec in H.
  destruct (morelinks (site cur)) as [|[|m]];
    try (injection H as <- _; cbn; lia).
  destruct (negb (morelinks (site (S cur)) =? 1)%nat);
    [destruct (content_loads (site (S cur))); injection H as <- _; cbn; lia|].
  destruct (sel_age (site (S cur)) && sel_athing (site (S cur))
            && sel_score (site (S cur)));
    [|injection H as <- _; cbn; lia].
  destruct (validate_spec (site (S cur)) idx T b) as (lv & Hv & _ & Hcmp & _).
  rewrite Hv in H. injection H as <- _. cbn [compared]. rewrite Hcmp.
  destruct (counts_match (site (S cur))); [|cbn; lia].
  rewrite !length_firstn. lia.
Qed.

Lemma while_loop_compared_le (site : Site) (rand : nat -> double) (T : Z)
    (fuel cur draws : nat) (idx : Z) (b : TimeValue)
    (l : list Event) (o : Outcome) :
  ClickWalker.while_loop site rand T fuel cur draws (idx, b) = Some (l, o) ->
  idx <= T + 1 ->
  idx + Z.of_nat (List.length (compared l)) <= T + 1.
Proof.
  revert cur draws idx b l. induction fuel as [|fuel IH];
    intros cur draws idx b l H Hidx;
    cbn [ClickWalker.while_loop fst] in H;
    destruct (idx <=? T) eqn:Hle;
    try discriminate H;
    try (injection H as <- <-; cbn; lia).
  apply Z.leb_le in Hle.
  destruct (ClickWalker.loop_body site rand T cur draws (idx, b))
    as [l1 [[idx' b']|o1]] eqn:Hbody.
  - destruct (loop_body_ret _ _ _ _ _ _ _ _ _ _ Hbody)
      as (_ & _ & _ & Hlen & _ & Hidx' & _).
    apply after_some in H. destruct H as (l2 & Hrest & ->).
    pose proof (loop_body_compared_le _ _ _ _ _ _ _ _ _ Hbody Hle) as Hb.
    rewrite Hlen in Hb.
    specialize (IH _ _ _ _ _ Hrest ltac:(lia)).
    rewrite compared_app, length_app, Hlen. lia.
  - injection H as <- <-.
    pose proof (loop_body_compared_le _ _ _ _ _ _ _ _ _ Hbody Hle). lia.
Qed.

(** X6.  The final script never compares more entries than its target: in
    every finished run, however it ends, at most [T] timestamps were
    compared. *)
Theorem X6_never_more_than_target_compared
    (site : Site) (rand : nat -> double) (T now : Z) (fuel : nat)
    (l : list Event) (o : Outcome) :
  0 <= T ->
  ClickWalker.sortHackerNewsArticles site rand T now fuel = Some (l, o) ->
  Z.of_nat (List.length (compared l)) <= T.
Proof.
  intros HT H.
  destruct (run_cases _ _ _ _ _ _ _ H) as [(_ & -> & _)|(_ & l' & -> & Hw)].
  - cbn. exact HT.
  - pose proof (while_loop_compared_le _ _ _ _ _ _ _ _ _ _ Hw ltac:(lia)).
    rewrite compared_app. cbn [opening_events compared app]. lia.
Qed.

(** A target of two over a page of three entries: two are compared. *)
Lemma X6_target_two_page_of_three :
  Z.of_nat
    (List.length
       (match ClickWalker.sortHackerNewsArticles
                (fun _ => listing_of [at_time 10 0; at_time 9 59; at_time 9 58])
                half 2 36060000 4 with
        | Some (l, _) => compared l
        | None => []
        end)) <= 2.
Proof.
  destruct (ClickWalker.sortHackerNewsArticles
              (fun _ => listing_of [at_time 10 0; at_time 9 59; at_time 9 58])
              half 2 36060000 4) as [[l o]|] eqn:E; [|discriminate].
  apply (X6_never_more_than_target_compared
           (fun _ => listing_of [at_time 10 0; at_time 9 59; at_time 9 58])
           half 2 36060000 4 l o).
  - discriminate.
  - exact E.
Defined.

(** ** Stopping at the first rejected entry *)

Lemma all_accepted_removelast (b : TimeValue) (l : list TimeValue) :
  all_accepted b l = true -> all_accepted b (removelast l) = true.
Proof.
  revert b. induction l as [|t l IH]; intros b H; [reflexivity|].
  cbn [all_accepted] in H. apply andb_prop in H. destruct H as [Hg Ha].
  destruct l as [|u l]; [reflexivity|].
  change (negb (date_gt t b) && all_accepted t (removelast (u :: l)) = true).
  rewrite Hg, (IH t Ha). reflexivity.
Qed.

Lemma evaluated_prefix_but_last (b : TimeValue) (l : list TimeValue) :
  all_accepted b (removelast (firstn (evaluated b l) l)) = true.
Proof.
  revert b. induction l as [|t l IH]; intros b; [reflexivity|].
  cbn [evaluated firstn]. destruct (date_gt t b) eqn:Hgt; [reflexivity|].
  specialize (IH t).
  destruct (firstn (evaluated t l) l) as [|u l'] eqn:E; [reflexivity|].
  change (negb (date_gt t b) && all_accepted t (removelast (u :: l')) = true).
  rewrite Hgt, IH. reflexivity.
Qed.

Lemma accepted_but_last_app (b : TimeValue) (c1 c2 : list TimeValue) :
  all_accepted b c1 = true ->
  all_accepted (last c1 b) (removelast c2) = true ->
  all_accepted b (removelast (c1 ++ c2)) = true.
Proof.
  intros H1 H2. destruct c2 as [|t c2].
  - rewrite app_nil_r. apply all_accepted_removelast. exact H1.
  - rewrite removelast_app by discriminate.
    rewrite all_accepted_app, H1, H2. reflexivity.
Qed.

Lemma loop_body_but_last (site : Site) (rand : nat -> double) (T : Z)
    (cur draws : nat) (idx : Z) (b : TimeValue)
    (l : list Event) (r : Res Cursor) :
  ClickWalker.loop_body site rand T cur draws (idx, b) = (l, r) ->
  all_accepted b (removelast (compared l)) = true.
Proof.
  intros H. rewrite loop_body_spec in H.
  destruct (morelinks (site cur)) as [|[|m]];
    try (injection H as <- _; reflexivity).
  destruct (negb (morelinks (site (S cur)) =? 1)%nat);
    [destruct (content_loads (site (S cur))); injection H as <- _; reflexivity|].
  destruct (sel_age (site (S cur)) && sel_athing (site (S cur))
            && sel_score (site (S cur)));
    [|injection H as <- _; reflexivity].
  destruct (validate_spec (site (S cur)) idx T b) as (lv & Hv & _ & Hcmp & _).
  rewrite Hv in H. injection H as <- _. cbn [compared]. rewrite Hcmp.
  destruct (counts_match (site (S cur))); [|reflexivity].
  apply evaluated_prefix_but_last.
Qed.

Lemma while_loop_but_last (site : Site) (rand : nat -> double) (T : Z)
    (fuel cur draws : nat) (idx : Z) (b : TimeValue)
    (l : list Event) (o : Outcome) :
  ClickWalker.while_loop site rand T fuel cur draws (idx, b) = Some (l, o) ->
  all_accepted b (removelast (compared l)) = true.
Proof.
  revert cur draws idx b l. induction fuel as [|fuel IH];
    intros cur draws idx b l H;
    cbn [ClickWalker.while_loop fst] in H;
    destruct (idx <=? T);
    try discriminate H;
    try (injection H as <- <-; reflexivity).
  destruct (ClickWalker.loop_body site rand T cur draws (idx, b))
    as [l1 [[idx' b']|o1]] eqn:Hbody.
  - destruct (loop_body_ret _ _ _ _ _ _ _ _ _ _ Hbody)
      as (_ & _ & _ & _ & Hacc & _ & Hb' & _).
    apply after_some in H. destruct H as (l2 & Hrest & ->).
    rewrite compared_app. apply accepted_but_last_app; [exact Hacc|].
    rewrite <- Hb'. apply (IH _ _ _ _ _ Hrest).
  - injection H as <- <-. apply (loop_body_but_last _ _ _ _ _ _ _ _ _ Hbody).
Qed.

(** X7.  The final script stops at the first rejected entry.  In every
    finished run all the compared timestamps but the last passed the test;
    and when the compared timestamps do not all pass, the last one is the
    offender: it is newer than the one compared before it (than the
    starting time when it is the first), and the status is not 0. *)
Theorem X7_stops_at_first_rejected_entry
    (site : Site) (rand : nat -> double) (T now : Z) (fuel : nat)
    (l : list Event) (o : Outcome) :
  ClickWalker.sortHackerNewsArticles site rand T now fuel = Some (l, o) ->
  all_accepted (Valid now) (removelast (compared l)) = true
  /\ (all_accepted (Valid now) (compared l) = false ->
      exists before t,
        compared l = before ++ [t]
        /\ all_accepted (Valid now) before = true
        /\ date_gt t (last before (Valid now)) = true
        /\ exit_status o <> 0).
Proof.
  intros H.
  assert (Hbl : all_accepted (Valid now) (removelast (compared l)) = true).
  { destruct (run_cases _ _ _ _ _ _ _ H) as [(_ & -> & _)|(_ & l' & -> & Hw)];
      [reflexivity|].
    rewrite compared_app. cbn [opening_events compared app].
    apply (while_loop_but_last _ _ _ _ _ _ _ _ _ _ Hw). }
  split; [exact Hbl|]. intros Hrej.
  assert (Hne : compared l <> []) by (intros E; rewrite E in Hrej; discriminate).
  exists (removelast (compared l)), (last (compared l) (Valid now)).
  pose proof (app_removelast_last (Valid now) Hne) as Happ.
  split; [exact Happ|]. split; [exact Hbl|]. split.
  - rewrite Happ, all_accepted_app, Hbl in Hrej. cbn in Hrej.
    rewrite andb_true_r in Hrej. apply negb_false_iff. exact Hrej.
  - intros Hs. destruct (run_success _ _ _ _ _ _ _ H Hs) as (_ & Ha & _).
    congruence.
Qed.

(** Over [10:00, 10:01, 09:00] the run stops at [10:01]: [09:00] is never
    compared. *)
Lemma X7_stops_at_ten_oh_one :
  all_accepted (Valid 36060000)
    (removelast
       (match ClickWalker.sortHackerNewsArticles
                (fun _ => listing_of [at_time 10 0; at_time 10 1; at_time 9 0])
                half 3 36060000 4 with
        | Some (l, _) => compared l
        | None => []
        end)) = true
  /\ ClickWalker.sortHackerNewsArticles
       (fun _ => listing_of [at_time 10 0; at_time 10 1; at_time 9 0])
       half 3 36060000 4
     = Some (opening_events ++
             [EvWait (double_of_Z 600); EvClick; EvWait (double_of_Z 600);
              EvLog (MsgPageHeader 1 (Valid 36060000) 3 3 3);
              EvEntry 1 (at_time 10 0) (js "1") (js "title");
              EvCompare (at_time 10 0) (Valid 36060000);
              EvEntry 2 (at_time 10 1) (js "1") (js "title");
              EvCompare (at_time 10 1) (at_time 10 0);
              EvLog MsgNotInOrder],
             ProcessExit (-1)).
Proof.
  split; [|reflexivity].
  destruct (ClickWalker.sortHackerNewsArticles
              (fun _ => listing_of [at_time 10 0; at_time 10 1; at_time 9 0])
              half 3 36060000 4) as [[l o]|] eqn:E; [|reflexivity].
  apply (proj1 (X7_stops_at_first_rejected_entry
                  (fun _ => listing_of [at_time 10 0; at_time 10 1; at_time 9 0])
                  half 3 36060000 4 l o E)).
Defined.

(** ** The bound carried from entry to entry *)

Lemma bounds_app (l1 l2 : list Event) : bounds (l1 ++ l2) = bounds l1 ++ bounds l2.
Proof.
  induction l1 as [|e l1 IH]; [reflexivity|].
  destruct e; simpl; rewrite ?IH; reflexivity.
Qed.

Lemma but_last_chain (b : TimeValue) (c1 c2 : list TimeValue) :
  removelast (b :: c1) ++ removelast (last c1 b :: c2)
  = removelast (b :: c1 ++ c2).
Proof.
  revert b. induction c1 as [|t c1 IH]; intros b; [reflexivity|].
  rewrite last_cons_bound.
  change (b :: (removelast (t :: c1) ++ removelast (last c1 t :: c2))
          = b :: removelast (t :: c1 ++ c2)).
  rewrite IH. reflexivity.
Qed.

Lemma check_articles_bounds (p : Page) (k i : nat) (idx : Z) (b : TimeValue)
    (l : list Event) (r : Res Cursor) :
  check_articles p k i (idx, b) = (l, r) ->
  bounds l = removelast (b :: compared l).
Proof.
  revert i idx b l r. induction k as [|k IH]; intros i idx b l r H.
  - injection H as <- _. reflexivity.
  - cbn [check_articles] in H. unfold nth_or_timeout in H.
    destruct (nth_error (athings p) i) as [title|];
      [|injection H as <- _; reflexivity].
    destruct (nth_error (scores p) i) as [ida|];
      [|injection H as <- _; reflexivity].
    destruct (nth_error (ages p) i) as [ts|];
      [|injection H as <- _; reflexivity].
    unfold bind, ret, emit, halt in H. destruct (date_gt ts b).
    + injection H as <- _. reflexivity.
    + destruct (check_articles p k (S i) (idx + 1, ts)) as [l' r'] eqn:Hrest.
      injection H as <- _. cbn [app bounds compared].
      rewrite (IH _ _ _ _ _ Hrest). reflexivity.
Qed.

Lemma validate_bounds (p : Page) (idx T : Z) (b : TimeValue)
    (l : list Event) (r : Res Cursor) :
  ClickWalker.validateArticlesOnPage p idx T b = (l, r) ->
  bounds l = removelast (b :: compared l).
Proof.
  unfold ClickWalker.validateArticlesOnPage. rewrite check_counts_spec.
  destruct (counts_match p); [|intros H; injection H as <- _; reflexivity].
  unfold bind, ret, emit, page_header.
  match goal with |- context [check_articles p ?n 0 ?c] =>
    destruct (check_articles p n 0 c) as [lc [c'|o]] eqn:Hc end;
    intros H; injection H as <- _; cbn [app bounds compared];
    rewrite ?bounds_app, ?compared_app; cbn [bounds compared];
    rewrite ?app_nil_r; apply (check_articles_bounds _ _ _ _ _ _ _ Hc).
Qed.

Lemma loop_body_bounds (site : Site) (rand : nat -> double) (T : Z)
    (cur draws : nat) (idx : Z) (b : TimeValue)
    (l : list Event) (r : Res Cursor) :
  ClickWalker.loop_body site rand T cur draws (idx, b) = (l, r) ->
  bounds l = removelast (b :: compared l).
Proof.
  intros H. rewrite loop_body_spec in H.
  destruct (morelinks (site cur)) as [|[|m]];
    try (injection H as <- _; reflexivity).
  destruct (negb (morelinks (site (S cur)) =? 1)%nat);
    [destruct (content_loads (site (S cur))); injection H as <- _; reflexivity|].
  destruct (sel_age (site (S cur)) && sel_athing (site (S cur))
            && sel_score (site (S cur)));
    [|injection H as <- _; reflexivity].
  destruct (ClickWalker.validateArticlesOnPage (site (S cur)) idx T b)
    as [lv rv] eqn:Hv.
  injection H as <- _. cbn [bounds compared].
  apply (validate_bounds _ _ _ _ _ _ Hv).
Qed.

Lemma while_loop_bounds (site : Site) (rand : nat -> double) (T : Z)
    (fuel cur draws : nat) (idx : Z) (b : TimeValue)
    (l : list Event) (o : Outcome) :
  ClickWalker.while_loop site rand T fuel cur draws (idx, b) = Some (l, o) ->
  bounds l = removelast (b :: compared l).
Proof.
  revert cur draws idx b l. induction fuel as [|fuel IH];
    intros cur draws idx b l H;
    cbn [ClickWalker.while_loop fst] in H;
    destruct (idx <=? T);
    try discriminate H;
    try (injection H as <- <-; reflexivity).
  destruct (ClickWalker.loop_body site rand T cur draws (idx, b))
    as [l1 [[idx' b']|o1]] eqn:Hbody.
  - destruct (loop_body_ret _ _ _ _ _ _ _ _ _ _ Hbody)
      as (_ & _ & _ & _ & _ & _ & Hb' & _).
    apply after_some in H. destruct H as (l2 & Hrest & ->).
    rewrite bounds_app, compared_app, (loop_body_bounds _ _ _ _ _ _ _ _ _ Hbody),
      (IH _ _ _ _ _ Hrest), Hb'.
    apply but_last_chain.
  - injection H as <- <-. apply (loop_body_bounds _ _ _ _ _ _ _ _ _ Hbody).
Qed.

(** X8.  Every comparison of a run is made against the timestamp compared
    just before it, also across pages: the first entry of a page is held
    against the last entry of the page before, and the very first entry
    against the starting time. *)
Theorem X8_each_entry_held_against_the_previous
    (site : Site) (rand : nat -> double) (T now : Z) (fuel : nat)
    (l : list Event) (o : Outcome) :
  ClickWalker.sortHackerNewsArticles site rand T now fuel = Some (l, o) ->
  bounds l = removelast (Valid now :: compared l).
Proof.
  intros H.
  destruct (run_cases _ _ _ _ _ _ _ H) as [(_ & -> & _)|(_ & l' & -> & Hw)];
    [reflexivity|].
  rewrite bounds_app, compared_app. cbn [opening_events bounds compared app].
  apply (while_loop_bounds _ _ _ _ _ _ _ _ _ _ Hw).
Qed.

(** Two pages of two entries, target four: the third entry is held against
    the second, which closed the page before. *)
Lemma X8_bound_crosses_pages :
  match ClickWalker.sortHackerNewsArticles
          (fun _ => listing_of [at_time 10 0; at_time 9 59]) half 4 36060000 4 with
  | Some (l, _) => bounds l
  | None => []
  end
  = [Valid 36060000; at_time 10 0; at_time 9 59].
Proof.
  destruct (ClickWalker.sortHackerNewsArticles
              (fun _ => listing_of [at_time 10 0; at_time 9 59]) half 4 36060000 4)
    as [[l o]|] eqn:E; [|discriminate E].
  rewrite (X8_each_entry_held_against_the_previous
             (fun _ => listing_of [at_time 10 0; at_time 9 59]) half 4 36060000 4
             l o E).
  injection E as <- _. reflexivity.
Defined.

(** ** Entries within the target *)

(** X9.  The final script evaluates the first [min(entries, T - verified)]
    entries of a page and no more.  On a page whose counts agree, with
    [idx - 1] entries verified so far, at most that many timestamps are
    compared; when the page check returns exactly that many were, they are
    the first ones of the page, and the count has grown by that number. *)
Theorem X9_page_check_stays_within_target
    (p : Page) (idx T : Z) (b : TimeValue) :
  counts_match p = true -> idx <= T + 1 ->
  exists l r,
    ClickWalker.validateArticlesOnPage p idx T b = (l, r)
    /\ Z.of_nat (List.length (compared l))
       <= Z.min (Z.of_nat (List.length (athings p))) (T - (idx - 1))
    /\ (forall c, r = Ret c ->
        Z.of_nat (List.length (compared l))
        = Z.min (Z.of_nat (List.length (athings p))) (T - (idx - 1))
        /\ compared l
           = firstn (Z.to_nat (Z.min (Z.of_nat (List.length (athings p)))
                                     (T - (idx - 1)))) (ages p)
        /\ fst c = idx + Z.min (Z.of_nat (List.length (athings p))) (T - (idx - 1))).
Proof.
  intros Hc Hidx. exact (click_walker_page_budget p idx T b Hc Hidx).
Qed.

(** The last page of Scenario D: thirty entries, ninety verified, ten
    compared. *)
Lemma X9_last_page_of_scenario_D :
  exists l r,
    ClickWalker.validateArticlesOnPage (listing_of (repeat (Valid 0) 30)) 91 100
      (Valid 0) = (l, r)
    /\ Z.of_nat (List.length (compared l)) <= 10
    /\ (forall c, r = Ret c ->
        Z.of_nat (List.length (compared l)) = 10
        /\ compared l = repeat (Valid 0) 10
        /\ fst c = 101).
Proof.
  apply (X9_page_check_stays_within_target
           (listing_of (repeat (Valid 0) 30)) 91 100 (Valid 0)).
  - reflexivity.
  - discriminate.
Defined.

(** ** How a run ends *)

Lemma last_event_app (l1 l2 : list Event) :
  last_event (l1 ++ l2)
  = match last_event l2 with
    | Some e => Some e
    | None => last_event l1
    end.
Proof.
  unfold last_event. rewrite rev_app_distr.
  destruct (rev l2); reflexivity.
Qed.

Lemma last_event_cons_some (e e' : Event) (l : list Event) :
  last_event l = Some e -> last_event (e' :: l) = Some e.
Proof.
  intros H. change (e' :: l) with ([e'] ++ l).
  rewrite last_event_app, H. reflexivity.
Qed.

Lemma no_banner_filter (l : list Event) :
  existsb failure_banner l = false -> filter failure_banner l = [].
Proof.
  induction l as [|e l IH]; [reflexivity|]. cbn [existsb filter].
  destruct (failure_banner e); [discriminate|]. exact IH.
Qed.

Lemma check_articles_exit_banner (p : Page) (k i : nat) (c : Cursor)
    (l : list Event) (code : Z) :
  check_articles p k i c = (l, Halt (ProcessExit code)) ->
  code = -1 /\ filter failure_banner l = [EvLog MsgNotInOrder].
Proof.
  revert i c l. induction k as [|k IH]; intros i [idx b] l H.
  - discriminate H.
  - cbn [check_articles] in H. unfold nth_or_timeout in H.
    destruct (nth_error (athings p) i) as [title|]; [|discriminate H].
    destruct (nth_error (scores p) i) as [ida|]; [|discriminate H].
    destruct (nth_error (ages p) i) as [ts|]; [|discriminate H].
    unfold bind, ret, emit, halt in H. destruct (date_gt ts b).
    + injection H as <- <-. split; reflexivity.
    + destruct (check_articles p k (S i) (idx + 1, ts)) as [l' r'] eqn:Hrest.
      injection H as <- ->. destruct (IH _ _ _ Hrest) as [Hc Hl].
      split; [exact Hc|]. cbn [app filter failure_banner]. exact Hl.
Qed.

Lemma validate_halt_shape (p : Page) (idx T : Z) (b : TimeValue)
    (l : list Event) (o : Outcome) :
  ClickWalker.validateArticlesOnPage p idx T b = (l, Halt o) ->
  (o = ProcessExit (-1) /\ filter failure_banner l = [EvLog MsgNotInOrder])
  \/ (o = Uncaught ReferenceError
      /\ filter failure_banner l = [EvLog MsgCountMismatch]).
Proof.
  intros H. destruct (validate_spec p idx T b) as (lv & Hv & _).
  rewrite H in Hv. injection Hv as _ Ho.
  revert H. unfold ClickWalker.validateArticlesOnPage.
  rewrite check_counts_spec.
  destruct (counts_match p).
  - match type of Ho with context [all_accepted b ?ts] =>
      destruct (all_accepted b ts) end; [discriminate Ho|].
    injection Ho as ->. unfold bind, ret, emit, page_header.
    match goal with |- context [check_articles p ?n 0 ?c] =>
      destruct (check_articles p n 0 c) as [lc [c'|o']] eqn:Hc end;
      intros H; [discriminate H|].
    injection H as <- ->. left. split; [reflexivity|].
    cbn [app filter failure_banner].
    apply (check_articles_exit_banner _ _ _ _ _ _ Hc).
  - intros H. injection H as <- <-. right. split; reflexivity.
Qed.

(** How a walk of the model can end, with the failure banners it printed. *)
Lemma loop_body_halt_shape (site : Site) (rand : nat -> double) (T : Z)
    (cur draws : nat) (idx : Z) (b : TimeValue)
    (l : list Event) (o : Outcome) :
  ClickWalker.loop_body site rand T cur draws (idx, b) = (l, Halt o) ->
  (o = ProcessExit (-1)
   /\ (filter failure_banner l = [EvLog MsgNotInOrder]
       \/ filter failure_banner l = [EvLog MsgNextPageFailed]))
  \/ (o = Uncaught ReferenceError
      /\ filter failure_banner l = [EvLog MsgCountMismatch])
  \/ (o = Uncaught PageError
      /\ filter failure_banner l = [EvLog MsgNextPageFailed])
  \/ ((o = Uncaught TimeoutError \/ o = Uncaught StrictModeError)
      /\ filter failure_banner l = []).
Proof.
  intros H. rewrite loop_body_spec in H.
  destruct (morelinks (site cur)) as [|[|m]];
    try (injection H as <- <-; right; right; right; split; [auto|reflexivity]).
  destruct (negb (morelinks (site (S cur)) =? 1)%nat).
  { destruct (content_loads (site (S cur))); injection H as <- <-.
    - left. split; [reflexivity|right; reflexivity].
    - right. right. left. split; reflexivity. }
  destruct (sel_age (site (S cur)) && sel_athing (site (S cur))
            && sel_score (site (S cur)));
    [|injection H as <- <-; right; right; right; split; [auto|reflexivity]].
  destruct (ClickWalker.validateArticlesOnPage (site (S cur)) idx T b)
    as [lv [c|ov]] eqn:Hv; [discriminate H|].
  injection H as <- <-.
  destruct (validate_halt_shape _ _ _ _ _ _ Hv) as [[-> Hl]|[-> Hl]].
  - left. split; [reflexivity|]. left. cbn [filter failure_banner]. exact Hl.
  - right. left. split; [reflexivity|]. cbn [filter failure_banner]. exact Hl.
Qed.

Lemma while_loop_end_shape (site : Site) (rand : nat -> double) (T : Z)
    (fuel cur draws : nat) (c : Cursor) (l : list Event) (o : Outcome) :
  ClickWalker.while_loop site rand T fuel cur draws c = Some (l, o) ->
  (o = ProcessExit 0 /\ last_event l = Some (EvLog MsgSuccess)
   /\ filter failure_banner l = [])
  \/ (o = ProcessExit (-1)
      /\ (filter failure_banner l = [EvLog MsgNotInOrder]
          \/ filter failure_banner l = [EvLog MsgNextPageFailed]))
  \/ (o = Uncaught ReferenceError
      /\ filter failure_banner l = [EvLog MsgCountMismatch])
  \/ (o = Uncaught PageError
      /\ filter failure_banner l = [EvLog MsgNextPageFailed])
  \/ ((o = Uncaught TimeoutError \/ o = Uncaught StrictModeError)
      /\ filter failure_banner l = []).
Proof.
  revert cur draws c l. induction fuel as [|fuel IH]; intros cur draws c l H;
    cbn [ClickWalker.while_loop] in H; destruct (fst c <=? T);
    try discriminate H;
    try (injection H as <- <-; left; repeat split; reflexivity).
  destruct c as [idx b].
  destruct (ClickWalker.loop_body site rand T cur draws (idx, b))
    as [l1 [[idx' b']|o1]] eqn:Hbody.
  - destruct (loop_body_ret _ _ _ _ _ _ _ _ _ _ Hbody)
      as (_ & _ & _ & _ & _ & _ & _ & _ & _ & _ & Hfb).
    apply after_some in H. destruct H as (l2 & Hrest & ->).
    rewrite last_event_app, filter_app, (no_banner_filter _ Hfb). cbn [app].
    destruct (IH _ _ _ _ Hrest)
      as [(-> & Hl & Hf)|[(-> & Hf)|[(-> & Hf)|[(-> & Hf)|(Ho & Hf)]]]];
      rewrite ?Hl; auto 8.
  - injection H as <- <-.
    destruct (loop_body_halt_shape _ _ _ _ _ _ _ _ _ Hbody)
      as [(-> & Hf)|[(-> & Hf)|[(-> & Hf)|(Ho & Hf)]]]; auto 8.
Qed.

(** X10.  Every failure exit of the final script is announced, and each
    banner tells how the run ended.  A run that ends with
    [process.exit(-1)] printed exactly one failure banner, that of an order
    violation or that of a next page that did not load; a run that ends
    with the error of the undefined [exit] printed the banner of the count
    mismatch and no other; a run that ends with [process.exit(0)] printed
    no failure banner and ends on the success banner.  Conversely the
    order-violation banner is only followed by [process.exit(-1)] and the
    count-mismatch banner by the error of the undefined [exit]. *)
Theorem X10_failure_exits_are_announced
    (site : Site) (rand : nat -> double) (T now : Z) (fuel : nat)
    (l : list Event) (o : Outcome) :
  ClickWalker.sortHackerNewsArticles site rand T now fuel = Some (l, o) ->
  (o = ProcessExit (-1) ->
   filter failure_banner l = [EvLog MsgNotInOrder]
   \/ filter failure_banner l = [EvLog MsgNextPageFailed])
  /\ (o = Uncaught ReferenceError ->
      filter failure_banner l = [EvLog MsgCountMismatch])
  /\ (o = ProcessExit 0 ->
      filter failure_banner l = []
      /\ last_event l = Some (EvLog MsgSuccess))
  /\ (In (EvLog MsgNotInOrder) l -> o = ProcessExit (-1))
  /\ (In (EvLog MsgCountMismatch) l -> o = Uncaught ReferenceError).
Proof.
  intros H.
  destruct (run_cases _ _ _ _ _ _ _ H) as [(_ & -> & ->)|(_ & l' & -> & Hw)].
  - repeat split; try discriminate; intros Hl;
      cbn in Hl; intuition discriminate.
  - assert (Hf : filter failure_banner (opening_events ++ l')
                 = filter failure_banner l') by reflexivity.
    assert (Hlast : last_event l' = Some (EvLog MsgSuccess) ->
                    last_event (opening_events ++ l') = Some (EvLog MsgSuccess)).
    { intros E. rewrite last_event_app, E. reflexivity. }
    destruct (while_loop_end_shape _ _ _ _ _ _ _ _ _ Hw)
      as [(-> & Hl & Hb)|[(-> & [Hb|Hb])|[(-> & Hb)|[(-> & Hb)|([->| ->] & Hb)]]]];
      rewrite <- Hf in Hb;
      (repeat split; try discriminate; auto;
       intros Hl';
       pose proof (proj2 (filter_In failure_banner _ _) (conj Hl' eq_refl)) as Hx;
       rewrite Hb in Hx; cbn in Hx; intuition discriminate).
Qed.

(** Scenario C ends with the error of the undefined [exit] after the one
    banner of the count mismatch. *)
Lemma X10_scenario_C_is_announced :
  ClickWalker.sortHackerNewsArticles (fun _ => scenario_C_page) half 100 36060000 4
  = Some (opening_events ++
          [EvWait (double_of_Z 600); EvClick; EvWait (double_of_Z 600);
           EvLog MsgCountMismatch],
          Uncaught ReferenceError)
  /\ filter failure_banner
       (opening_events ++
        [EvWait (double_of_Z 600); EvClick; EvWait (double_of_Z 600);
         EvLog MsgCountMismatch])
     = [EvLog MsgCountMismatch].
Proof.
  split; [reflexivity|].
  apply (proj1 (proj2 (X10_failure_exits_are_announced
                         (fun _ => scenario_C_page) half 100 36060000 4%nat
                         _ (Uncaught ReferenceError) eq_refl))).
  reflexivity.
Defined.

(** ** The first draft against the final script *)

Lemma bind_ret_l {A B} (a : A) (f : A -> Run B) : bind (ret a) f = f a.
Proof. unfold bind, ret. destruct (f a). reflexivity. Qed.

Lemma offset_validate_spec (p : Page) (idx T : Z) (b : TimeValue) :
  OffsetWalker.validateArticlesOnPage p idx T b
  = if table_shown p && sel_age p && sel_athing p && sel_score p
    then ClickWalker.validateArticlesOnPage p idx (T - 1) b
    else ([], Halt (Uncaught TimeoutError)).
Proof.
  unfold OffsetWalker.validateArticlesOnPage, ClickWalker.validateArticlesOnPage,
    wait_selectors.
  replace (T - 1 - idx + 1) with (T - idx) by lia.
  destruct (table_shown p); [|reflexivity].
  destruct (sel_age p); [|reflexivity].
  destruct (sel_athing p); [|reflexivity].
  destruct (sel_score p); [|reflexivity].
  cbn [andb negb]. rewrite !bind_ret_l. reflexivity.
Qed.

(** X11.  The page check of the first draft is, once its waits have
    passed, the page check of the final script for a target one lower:
    every page is checked as if [T - 1] entries were asked for. *)
Theorem X11_draft_page_check_is_final_check_one_lower
    (p : Page) (idx T : Z) (b : TimeValue) :
  OffsetWalker.validateArticlesOnPage p idx T b
  = if table_shown p && sel_age p && sel_athing p && sel_score p
    then ClickWalker.validateArticlesOnPage p idx (T - 1) b
    else ([], Halt (Uncaught TimeoutError)).
Proof. exact (offset_validate_spec p idx T b). Qed.

Lemma offset_while_step (listing : Z -> Page) (T : Z) (fuel : nat)
    (idx : Z) (b : TimeValue) :
  OffsetWalker.while_loop listing T (S fuel) (idx, b)
  = if idx <? T
    then match offset_turn (listing idx) idx T b with
         | (l, Halt o) => Some (l, o)
         | (l, Ret c') => after l (OffsetWalker.while_loop listing T fuel c')
         end
    else Some ([EvClose], ProcessExit 0).
Proof.
  cbn [OffsetWalker.while_loop fst snd]. destruct (idx <? T); [|reflexivity].
  rewrite offset_validate_spec. unfold offset_turn.
  destruct (sel_age (listing idx)) eqn:Hage; cbn [negb].
  - rewrite andb_true_r.
    destruct (table_shown (listing idx) && true && sel_athing (listing idx)
              && sel_score (listing idx)) eqn:Hg;
      rewrite andb_true_r in Hg; rewrite Hg.
    + unfold bind, emit, ret. cbn [app].
      destruct (ClickWalker.validateArticlesOnPage (listing idx) idx (T - 1) b)
        as [l [c|o]]; reflexivity.
    + reflexivity.
  - rewrite andb_false_r. reflexivity.
Qed.

Lemma offset_while_done (listing : Z -> Page) (T : Z) (fuel : nat)
    (idx : Z) (b : TimeValue) :
  T <= idx ->
  OffsetWalker.while_loop listing T fuel (idx, b) = Some ([EvClose], ProcessExit 0).
Proof.
  intros H. apply Z.ltb_ge in H.
  destruct fuel; cbn [OffsetWalker.while_loop fst]; rewrite H; reflexivity.
Qed.

(** What a turn of the draft leaves behind. *)
Lemma offset_turn_ret (p : Page) (idx T : Z) (b : TimeValue)
    (l : list Event) (idx' : Z) (b' : TimeValue) :
  offset_turn p idx T b = (l, Ret (idx', b')) ->
  all_accepted b (compared l) = true
  /\ idx' = idx + Z.of_nat (List.length (compared l))
  /\ (idx <= T -> idx' <= T)
  /\ b' = last (compared l) b
  /\ offsets_follow (idx - 1) l = true.
Proof.
  unfold offset_turn.
  destruct (table_shown p && sel_age p && sel_athing p && sel_score p);
    [|discriminate].
  destruct (validate_spec p idx (T - 1) b) as (lv & Hv & Hpe & Hcmp & _).
  rewrite Hv. intros H.
  destruct (counts_match p) eqn:Hc; [|discriminate H].
  set (n := Z.to_nat (Z.min (Z.of_nat (List.length (athings p)))
                            (T - 1 - idx + 1))) in *.
  destruct (all_accepted b (firstn n (ages p))) eqn:Hacc; [|discriminate H].
  injection H as <- <- <-.
  rewrite (evaluated_all _ _ Hacc), firstn_all in Hcmp.
  destruct (counts_match_lengths p Hc) as [Hla _].
  assert (Hlen : List.length (firstn n (ages p)) = n)
    by (rewrite length_firstn; subst n; lia).
  cbn [compared offsets_follow]. rewrite Hcmp, Hlen, Hacc.
  repeat split; try (subst n; lia).
  replace (idx =? idx - 1 + 1) with true by (symmetry; apply Z.eqb_eq; lia).
  cbn [andb]. clear - Hpe. revert Hpe. generalize (idx - 1).
  induction lv as [|e lv IH]; intros s H; [reflexivity|].
  cbn [forallb] in H. apply andb_prop in H. destruct H as [He Hl].
  destruct e; try discriminate He; cbn [offsets_follow]; apply IH; exact Hl.
Qed.

Lemma offset_turn_halt (p : Page) (idx T : Z) (b : TimeValue)
    (l : list Event) (o : Outcome) :
  offset_turn p idx T b = (l, Halt o) ->
  exit_status o <> 0 /\ offsets_follow (idx - 1) l = true.
Proof.
  unfold offset_turn.
  destruct (table_shown p && sel_age p && sel_athing p && sel_score p).
  - destruct (validate_spec p idx (T - 1) b) as (lv & Hv & Hpe & _).
    rewrite Hv. intros H. injection H as <- Ho. split.
    + destruct (counts_match p);
        [match type of Ho with context [all_accepted b ?ts] =>
           destruct (all_accepted b ts) end; [discriminate Ho|]|];
        injection Ho as <-; vm_compute; discriminate.
    + cbn [offsets_follow].
      replace (idx =? idx - 1 + 1) with true by (symmetry; apply Z.eqb_eq; lia).
      cbn [andb]. clear - Hpe. revert Hpe. generalize (idx - 1).
      induction lv as [|e lv IH]; intros s H; [reflexivity|].
      cbn [forallb] in H. apply andb_prop in H. destruct H as [He Hl].
      destruct e; try discriminate He; cbn [offsets_follow]; apply IH; exact Hl.
  - intros H. injection H as <- <-. split; [discriminate|].
    cbn [offsets_follow].
    replace (idx =? idx - 1 + 1) with true by (symmetry; apply Z.eqb_eq; lia).
    reflexivity.
Qed.

Lemma offsets_follow_app (s : Z) (l1 l2 : list Event) :
  offsets_follow s (l1 ++ l2)
  = offsets_follow s l1
    && offsets_follow (s + Z.of_nat (List.length (compared l1))) l2.
Proof.
  revert s. induction l1 as [|e l1 IH]; intros s.
  - cbn. rewrite Z.add_0_r. reflexivity.
  - destruct e as [|[n|]| | | | | | |]; cbn [app offsets_follow compared];
      rewrite IH; try reflexivity.
    + rewrite andb_assoc. reflexivity.
    + cbn [List.length]. rewrite Nat2Z.inj_succ.
      replace (s + 1 + Z.of_nat (List.length (compared l1)))
        with (s + Z.succ (Z.of_nat (List.length (compared l1)))) by lia.
      reflexivity.
Qed.

Lemma offset_while_inv (listing : Z -> Page) (T : Z) (fuel : nat)
    (idx : Z) (b : TimeValue) (l : list Event) (o : Outcome) :
  OffsetWalker.while_loop listing T fuel (idx, b) = Some (l, o) -> idx <= T ->
  offsets_follow (idx - 1) l = true
  /\ (exit_status o = 0 ->
      all_accepted b (compared l) = true
      /\ idx + Z.of_nat (List.length (compared l)) = T).
Proof.
  revert idx b l. induction fuel as [|fuel IH]; intros idx b l H Hidx.
  - cbn [OffsetWalker.while_loop fst] in H. destruct (idx <? T) eqn:Hlt;
      [discriminate H|]. apply Z.ltb_ge in Hlt. injection H as <- <-.
    cbn. split; [reflexivity|]. intros _. split; [reflexivity|lia].
  - rewrite offset_while_step in H. destruct (idx <? T) eqn:Hlt.
    + destruct (offset_turn (listing idx) idx T b) as [l1 [[idx' b']|o1]] eqn:Ht.
      * destruct (offset_turn_ret _ _ _ _ _ _ _ Ht)
          as (Hacc & Hidx' & Hle & Hb' & Hof).
        apply after_some in H. destruct H as (l2 & Hrest & ->).
        destruct (IH _ _ _ Hrest (Hle Hidx)) as [Hof2 Hok].
        rewrite offsets_follow_app, compared_app, all_accepted_app, length_app.
        rewrite Hof, Hacc, <- Hb'. cbn [andb].
        replace (idx - 1 + Z.of_nat (List.length (compared l1)))
          with (idx' - 1) by lia.
        split; [exact Hof2|]. intros Hs. destruct (Hok Hs) as [Ha Hn].
        split; [exact Ha|lia].
      * injection H as <- <-.
        destruct (offset_turn_halt _ _ _ _ _ _ Ht) as [Hs Hof].
        split; [exact Hof|]. intros Hz. contradiction.
    + apply Z.ltb_ge in Hlt. injection H as <- <-. cbn.
      split; [reflexivity|]. intros _. split; [reflexivity|lia].
Qed.

(** X12.  The first draft stops one entry short of its target.  For a
    target of at least 1, a run of the draft that ends with status 0 has
    compared exactly [T - 1] entries, all of which passed the test; with a
    target of 1 or less it loads no page at all and still ends with
    status 0. *)
Theorem X12_draft_verifies_one_entry_fewer :
  (forall (listing : Z -> Page) (T now : Z) (fuel : nat)
          (l : list Event) (o : Outcome),
      1 <= T ->
      OffsetWalker.sortHackerNewsArticles listing T now fuel = Some (l, o) ->
      exit_status o = 0 ->
      all_accepted (Valid now) (compared l) = true
      /\ Z.of_nat (List.length (compared l)) = T - 1)
  /\
  (forall (listing : Z -> Page) (T now : Z) (fuel : nat),
      T <= 1 ->
      OffsetWalker.sortHackerNewsArticles listing T now fuel
      = Some ([EvLaunch; EvClose], ProcessExit 0)).
Proof.
  split.
  - intros listing T now fuel l o HT H Hs.
    unfold OffsetWalker.sortHackerNewsArticles in H.
    apply after_some in H. destruct H as (l' & Hw & ->).
    destruct (offset_while_inv _ _ _ _ _ _ _ Hw HT) as [_ Hok].
    destruct (Hok Hs) as [Ha Hn]. cbn [app compared]. split; [exact Ha|lia].
  - intros listing T now fuel HT. unfold OffsetWalker.sortHackerNewsArticles.
    rewrite offset_while_done by exact HT. reflexivity.
Qed.

(** A target of three over in-order pages: the draft exits 0 after two
    comparisons. *)
Lemma X12_target_three_compares_two :
  OffsetWalker.sortHackerNewsArticles
    (fun _ => listing_of [at_time 10 0; at_time 9 59; at_time 9 58]) 3 36060000 4
  = Some ([EvLaunch; EvGoto (Some 1);
           EvLog (MsgPageHeader 1 (Valid 36060000) 3 3 3);
           EvEntry 1 (at_time 10 0) (js "1") (js "title");
           EvCompare (at_time 10 0) (Valid 36060000);
           EvEntry 2 (at_time 9 59) (js "1") (js "title");
           EvCompare (at_time 9 59) (at_time 10 0);
           EvLog MsgPageChecked; EvClose], ProcessExit 0)
  /\ all_accepted (Valid 36060000) [at_time 10 0; at_time 9 59] = true
  /\ Z.of_nat (List.length [at_time 10 0; at_time 9 59]) = 3 - 1.
Proof.
  split; [reflexivity|].
  apply (proj1 X12_draft_verifies_one_entry_fewer
           (fun _ => listing_of [at_time 10 0; at_time 9 59; at_time 9 58])
           3 36060000 4%nat
           [EvLaunch; EvGoto (Some 1);
            EvLog (MsgPageHeader 1 (Valid 36060000) 3 3 3);
            EvEntry 1 (at_time 10 0) (js "1") (js "title");
            EvCompare (at_time 10 0) (Valid 36060000);
            EvEntry 2 (at_time 9 59) (js "1") (js "title");
            EvCompare (at_time 9 59) (at_time 10 0);
            EvLog MsgPageChecked; EvClose]
           (ProcessExit 0)).
  - discriminate.
  - reflexivity.
  - reflexivity.
Defined.

(** X13.  The first draft never loads overlapping pages: in every finished
    run the offset asked of each page load is one more than the number of
    entries compared before it. *)
Theorem X13_draft_offsets_follow_the_count
    (listing : Z -> Page) (T now : Z) (fuel : nat)
    (l : list Event) (o : Outcome) :
  OffsetWalker.sortHackerNewsArticles listing T now fuel = Some (l, o) ->
  offsets_follow 0 l = true.
Proof.
  intros H. unfold OffsetWalker.sortHackerNewsArticles in H.
  apply after_some in H. destruct H as (l' & Hw & ->).
  cbn [app offsets_follow].
  destruct (Z.le_gt_cases 1 T) as [HT|HT].
  - apply (proj1 (offset_while_inv _ _ _ _ _ _ _ Hw HT)).
  - rewrite offset_while_done in Hw by lia. injection Hw as <- _. reflexivity.
Qed.

(** Pages of two entries, target four: the two loads ask for offsets 1
    and 3. *)
Lemma X13_offsets_one_three :
  offsets_follow 0
    (match OffsetWalker.sortHackerNewsArticles
             (fun _ => listing_of [Valid 0; Valid 0]) 4 0 4 with
     | Some (l, _) => l
     | None => []
     end) = true.
Proof.
  destruct (OffsetWalker.sortHackerNewsArticles
              (fun _ => listing_of [Valid 0; Valid 0]) 4 0 4)
    as [[l o]|] eqn:E; [|reflexivity].
  apply (X13_draft_offsets_follow_the_count
           (fun _ => listing_of [Valid 0; Valid 0]) 4 0 4 l o E).
Defined.
